(** * j_staget: the J-STAGE search client, embedded and verified

    A shallow embedding of [j_staget/_xml.py] (the field extractor) and
    [j_staget/client.py] (the pagination loop and the assembly of the result
    table), followed by the properties of [fetch].

    Modelling conventions.
    - A Python [str] is a [string]; one character stands for one code point
      below 256.  [None] is [option]'s [None].
    - A Python [int] is a [Z].
    - An lxml element is a [node]: a namespace, a local name and the ordered
      children (elements, text nodes, comments and processing instructions).
      The program reads no attribute, and attributes are left out.
    - [requests.Session.get] followed by [etree.fromstring] is a [Transport]:
      the reply to the n-th request, as far as the program can observe it.
    - The polars table is a list of named columns of cells; [pl.DataFrame]
      fails where polars cannot give a column one type. *)

From Stdlib Require Import String Ascii List ZArith Bool Lia DecimalString.
From Stdlib Require Decimal DecimalPos.
Import ListNotations.

Set Warnings "-register-all".

Local Open Scope string_scope.
Local Open Scope Z_scope.

(** ** Python built-ins used by the program *)

Module Py.

(** [str.isspace] on the code points below 256. *)
Definition isspace (c : ascii) : bool :=
  let n := N_of_ascii c in
  ((9 <=? n) && (n <=? 13) || (28 <=? n) && (n <=? 32)
   || (n =? 133) || (n =? 160))%N.

Fixpoint lstrip (s : string) : string :=
  match s with
  | String c rest => if isspace c then lstrip rest else s
  | EmptyString => EmptyString
  end.

Fixpoint rstrip (s : string) : string :=
  match s with
  | String c rest =>
      match rstrip rest with
      | EmptyString => if isspace c then EmptyString else String c EmptyString
      | rest' => String c rest'
      end
  | EmptyString => EmptyString
  end.

(** [s.strip()] *)
Definition strip (s : string) : string := rstrip (lstrip s).

(** Truth value of a [str]. *)
Definition nonempty (s : string) : bool :=
  match s with EmptyString => false | _ => true end.

(** Truth value of a [str | None], as in [if material:]. *)
Definition truthy (o : option string) : bool :=
  match o with Some s => nonempty s | None => false end.

(** [str(n)] for an [int]. *)
Definition str (z : Z) : string := NilZero.string_of_int (Z.to_int z).

Definition is_digit (c : ascii) : bool :=
  let n := N_of_ascii c in ((48 <=? n) && (n <=? 57))%N.

Definition digit_value (c : ascii) : Z := Z.of_N (N_of_ascii c) - 48.

(** The digit part of a base-10 literal: digits, with single underscores
    allowed between two digits.  Returns the value and the digit count. *)
Fixpoint int_digits (s : string) (after_digit : bool) (acc : Z) (count : nat)
  : option (Z * nat) :=
  match s with
  | EmptyString => if after_digit then Some (acc, count) else None
  | String c rest =>
      if is_digit c then
        int_digits rest true (10 * acc + digit_value c) (S count)
      else if Ascii.eqb c "_" then
        if after_digit then int_digits rest false acc count else None
      else None
  end.

(** [sys.get_int_max_str_digits()], the interpreter's default. *)
Definition int_max_str_digits : nat := 4300.

(** Why [int(s)] raised [ValueError]. *)
Inductive int_error : Type :=
| InvalidLiteral (s : string)
| ExceedsDigitLimit (digits : nat).

(** [int(s)] for a [str]: surrounding whitespace, an optional sign, the
    digit part. *)
Definition int (s : string) : int_error + Z :=
  let t := strip s in
  let '(neg, body) :=
    match t with
    | String "-" rest => (true, rest)
    | String "+" rest => (false, rest)
    | _ => (false, t)
    end in
  match int_digits body false 0 0 with
  | None => inl (InvalidLiteral s)
  | Some (v, count) =>
      if (int_max_str_digits <? count)%nat then inl (ExceedsDigitLimit count)
      else inr (if neg then - v else v)
  end.

(** A [dict] with [str] keys, in insertion order. *)
Definition dict (V : Type) : Type := list (string * V).

(** [k in d] *)
Definition contains {V} (d : dict V) (k : string) : bool :=
  existsb (fun kv => String.eqb (fst kv) k) d.

(** [d.get(k)] *)
Fixpoint get {V} (d : dict V) (k : string) : option V :=
  match d with
  | [] => None
  | (k', v) :: rest => if String.eqb k' k then Some v else get rest k
  end.

(** [d[k] = v]: an existing key keeps its position, a new key goes last. *)
Fixpoint set {V} (d : dict V) (k : string) (v : V) : dict V :=
  match d with
  | [] => [(k, v)]
  | (k', v') :: rest =>
      if String.eqb k' k then (k, v) :: rest else (k', v') :: set rest k v
  end.

(** [sep.join(parts)] *)
Fixpoint join (sep : string) (parts : list string) : string :=
  match parts with
  | [] => EmptyString
  | [p] => p
  | p :: rest => p ++ sep ++ join sep rest
  end.

Definition hex_digit (n : N) : ascii :=
  ascii_of_N (if (n <? 10)%N then 48 + n else 55 + n)%N.

Definition percent (byte : N) : string :=
  String "%" (String (hex_digit (byte / 16)) (String (hex_digit (byte mod 16))
    EmptyString)).

(** Characters [urllib.parse.quote] never escapes: letters, digits, [_.-~]. *)
Definition unreserved (c : ascii) : bool :=
  let n := N_of_ascii c in
  ((65 <=? n) && (n <=? 90) || (97 <=? n) && (n <=? 122)
   || (48 <=? n) && (n <=? 57)
   || (n =? 95) || (n =? 46) || (n =? 45) || (n =? 126))%N.

(** [urllib.parse.quote(s, safe="")]: the UTF-8 bytes of [s], every byte
    that is not unreserved written as [%XX]. *)
Fixpoint quote (s : string) : string :=
  match s with
  | EmptyString => EmptyString
  | String c rest =>
      let n := N_of_ascii c in
      (if unreserved c then String c EmptyString
       else if (n <? 128)%N then percent n
       else percent (192 + n / 64)%N ++ percent (128 + n mod 64)%N)
      ++ quote rest
  end.

End Py.

(** ** The XML documents lxml hands to the program *)

(** An element with its namespace URI, local name and children in document
    order, a text node, or a comment (a processing instruction is the same
    to the program: a child that is no element and holds no text node). *)
Inductive node : Type :=
| Elem (ns : string) (name : string) (kids : list node)
| Text (s : string)
| Comment (s : string).

(** What an XPath evaluation returns: text nodes as strings, or elements. *)
Inductive xres : Type :=
| XText (s : string)
| XElem (e : node).

(** [_xml.NS] *)
Definition NS : Py.dict string :=
  [ ("atom", "http://www.w3.org/2005/Atom");
    ("prism", "http://prismstandard.org/namespaces/basic/2.0/");
    ("opensearch", "http://a9.com/-/spec/opensearch/1.1/");
    ("xml", "http://www.w3.org/XML/1998/namespace") ].

(** A name test of an XPath step. *)
Inductive name_test : Type :=
| QName (prefix : string) (local : string)   (* prefix:local, through NS *)
| LocalName (local : string).                (* *[local-name()='local'] *)

Definition name_matches (t : name_test) (ns name : string) : bool :=
  match t with
  | QName prefix local =>
      match Py.get NS prefix with
      | Some uri => String.eqb uri ns && String.eqb local name
      | None => false
      end
  | LocalName local => String.eqb local name
  end.

Definition kids_of (n : node) : list node :=
  match n with Elem _ _ kids => kids | Text _ | Comment _ => [] end.

(** lxml's [element.text]: the text before the first child, be it an
    element or a comment. *)
Definition elem_text (n : node) : option string :=
  match n with
  | Elem _ _ (Text s :: _) => Some s
  | _ => None
  end.

(** The child step [./test]. *)
Definition child_elems (t : name_test) (n : node) : list node :=
  filter (fun k => match k with
                   | Elem ns name _ => name_matches t ns name
                   | Text _ | Comment _ => false
                   end) (kids_of n).

(** The step [/text()]: the text-node children. *)
Definition text_kids (n : node) : list string :=
  flat_map (fun k => match k with
                     | Text s => [s]
                     | Elem _ _ _ | Comment _ => []
                     end)
           (kids_of n).

(** The step [//text()]: every text node below, in document order. *)
Fixpoint text_descendants (n : node) : list string :=
  match n with
  | Text s => [s]
  | Comment _ => []
  | Elem _ _ kids => flat_map text_descendants kids
  end.

(** [//test]: every element of the document that passes the name test, in
    document order. *)
Fixpoint descendant_elems (t : name_test) (n : node) : list node :=
  match n with
  | Text _ | Comment _ => []
  | Elem ns name kids =>
      ((if name_matches t ns name then [n] else [])
       ++ flat_map (descendant_elems t) kids)%list
  end.

(** Does the chain of ancestors (nearest first) pass the name tests
    (nearest first)? *)
Fixpoint chain_matches (tests : list name_test) (ancestors : list (string * string))
  : bool :=
  match tests, ancestors with
  | [], _ => true
  | t :: tests', (ns, name) :: ancestors' =>
      name_matches t ns name && chain_matches tests' ancestors'
  | _ :: _, [] => false
  end.

(** [//tn/.../t1/text()]: every text node of the document whose parent
    passes [t1], grandparent [t2], and so on; in document order. *)
Fixpoint texts_under (tests : list name_test) (ancestors : list (string * string))
  (n : node) : list string :=
  match n with
  | Text s => if chain_matches tests ancestors then [s] else []
  | Comment _ => []
  | Elem ns name kids =>
      flat_map (texts_under tests ((ns, name) :: ancestors)) kids
  end.

(** The relative paths [_xml.py] and [client.py] evaluate at an entry:
    child steps by local name, closed by [/text()] or [//text()]. *)
Inductive text_step : Type := ChildText | AnyText.

Record local_path : Type := LocalPath {
  steps : list string;
  last : text_step
}.

Definition xpath_local (entry : node) (p : local_path) : list xres :=
  let nodes :=
    fold_left (fun ns local => flat_map (child_elems (LocalName local)) ns)
              (steps p) [entry] in
  map XText
      (flat_map (match last p with
                 | ChildText => text_kids
                 | AnyText => text_descendants
                 end) nodes).

(** *** _xml.py *)

(** [get_texts(entry, "prefix:local")] *)
Definition get_texts (entry : node) (prefix local : string) : list string :=
  flat_map (fun n => match elem_text n with
                     | Some t => if Py.nonempty t then [t] else []
                     | None => []
                     end)
           (child_elems (QName prefix local) entry).

Definition get_first (entry : node) (prefix local : string) : option string :=
  match get_texts entry prefix local with
  | v :: _ => Some v
  | [] => None
  end.

Definition texts_local (entry : node) (xpath_expr : local_path) : list string :=
  flat_map (fun v =>
              match v with
              | XText s =>
                  let t := Py.strip s in
                  if Py.nonempty t then [t] else []
              | XElem e =>
                  match elem_text e with
                  | Some t => if Py.nonempty t && Py.nonempty (Py.strip t)
                              then [Py.strip t] else []
                  | None => []
                  end
              end)
           (xpath_local entry xpath_expr).

Definition first_local (entry : node) (xpath_expr : local_path) : option string :=
  match texts_local entry xpath_expr with
  | v :: _ => Some v
  | [] => None
  end.

Definition pick_ja_or_first_tag_local (entry : node) (tag : string)
  : option string :=
  let ja := first_local entry (LocalPath [tag; "ja"] ChildText) in
  if Py.truthy ja then ja
  else first_local entry (LocalPath [tag] AnyText).

Definition authors_local (entry : node) : list string :=
  let ja := texts_local entry (LocalPath ["author"; "ja"; "name"] ChildText) in
  match ja with
  | _ :: _ => ja
  | [] => texts_local entry (LocalPath ["author"; "name"] ChildText)
  end.


(** ** Values, and the polars operations the program uses *)

(** What the record dictionaries and the table cells hold. *)
Inductive value : Type :=
| VNone                        (* None / null *)
| VStr (s : string)
| VList (l : list string)
| VInt (z : Z)
| VBool (b : bool).

Definition of_option (o : option string) : value :=
  match o with Some s => VStr s | None => VNone end.

(** A table: named columns of equal length, in column order. *)
Definition Series : Type := list value.
Definition DataFrame : Type := list (string * Series).

Definition columns (df : DataFrame) : list string := map fst df.

Definition height (df : DataFrame) : nat :=
  match df with
  | [] => O
  | (_, cells) :: _ => length cells
  end.

(** [df.is_empty()] *)
Definition is_empty (df : DataFrame) : bool := Nat.eqb (height df) 0.

(** [df[name]] *)
Definition column (df : DataFrame) (name : string) : option Series :=
  Py.get df name.

(** The number of rows from which polars chooses the type of each column
    ([infer_schema_length], left at its default by [fetch]). *)
Definition INFER_SCHEMA_LENGTH : nat := 100.

Definition is_str (v : value) : bool :=
  match v with VStr _ => true | _ => false end.

(** Can polars build the column?  On the cells the records hold (nulls and
    strings in one column, lists in another), its type is chosen from the
    first [INFER_SCHEMA_LENGTH] values: String when one of them is a string;
    without a string there a column of nulls is of type Null, and a string
    further down cannot be appended to it.  Nulls go into every column, and
    a column of lists takes every list. *)
Definition column_builds (cells : Series) : bool :=
  existsb is_str (firstn INFER_SCHEMA_LENGTH cells)
  || negb (existsb is_str (skipn INFER_SCHEMA_LENGTH cells)).

(** The columns [pl.DataFrame(data)] reads from a list of dictionaries with
    the same keys: the keys of the first dictionary become the columns; no
    dictionary, no column.  The cells keep the values of the
    dictionaries. *)
Definition frame_of_dicts (data : list (Py.dict value)) : DataFrame :=
  match data with
  | [] => []
  | first :: _ =>
      map (fun k => (k, map (fun d => match Py.get d k with
                                      | Some v => v
                                      | None => VNone
                                      end) data))
          (map fst first)
  end.

(** [pl.DataFrame(data)]: the frame, or [None] where polars raises
    ComputeError because a column cannot be built. *)
Definition DataFrame_of_dicts (data : list (Py.dict value)) : option DataFrame :=
  let frame := frame_of_dicts data in
  if forallb (fun c => column_builds (snd c)) frame then Some frame else None.

Inductive dtype : Type := Utf8 | Int32 | ListUtf8.

(** The expressions [fetch] builds. *)
Inductive expr : Type :=
| col (name : string)
| lit (v : value)
| cast (e : expr) (t : dtype)                (* .cast(t, strict=False) *)
| is_not_null (e : expr)
| concat_str (es : list expr)
| when_then_otherwise (c t o : expr)
| alias (e : expr) (name : string).

(** The name of the column an expression produces. *)
Fixpoint output_name (e : expr) : string :=
  match e with
  | col name => name
  | lit _ => "literal"
  | cast e' _ => output_name e'
  | is_not_null e' => output_name e'
  | concat_str es => match es with e' :: _ => output_name e' | [] => "literal" end
  | when_then_otherwise _ t _ => output_name t
  | alias _ name => name
  end.

Definition concat_cell (a b : value) : value :=
  match a, b with
  | VStr x, VStr y => VStr (x ++ y)
  | _, _ => VNone
  end.

Definition when_cell (c t o : value) : value :=
  match c with VBool true => t | _ => o end.

Definition zip_with {A B C} (f : A -> B -> C) (l : list A) (m : list B) : list C :=
  map (fun ab => f (fst ab) (snd ab)) (combine l m).

Section Polars.

(** polars' parser of a string as a 32-bit integer, as the non-strict cast
    of a string column uses it: [None] where the cast yields null. *)
Variable str_to_int32 : string -> option Z.

(** The non-strict cast of one cell, on the cell kinds [fetch] casts:
    strings and nulls to Utf8 or Int32, string lists to List(Utf8). *)
Definition cast_cell (t : dtype) (v : value) : value :=
  match t, v with
  | Utf8, VStr s => VStr s
  | Int32, VStr s =>
      match str_to_int32 s with Some z => VInt z | None => VNone end
  | Int32, VInt z => VInt z
  | ListUtf8, VList l => VList l
  | _, _ => VNone
  end.

(** An expression evaluated on a table; [None] when a column is missing
    (polars raises ColumnNotFoundError). *)
Fixpoint eval (df : DataFrame) (e : expr) : option Series :=
  match e with
  | col name => column df name
  | lit v => Some (repeat v (height df))
  | cast e' t => option_map (map (cast_cell t)) (eval df e')
  | is_not_null e' =>
      option_map (map (fun v => match v with
                                | VNone => VBool false
                                | _ => VBool true
                                end)) (eval df e')
  | concat_str es =>
      fold_left (fun acc e' =>
                   match acc, eval df e' with
                   | Some a, Some b => Some (zip_with concat_cell a b)
                   | _, _ => None
                   end)
                es (Some (repeat (VStr "") (height df)))
  | when_then_otherwise c t o =>
      match eval df c, eval df t, eval df o with
      | Some cs, Some ts, Some os =>
          Some (zip_with (fun cv to => when_cell cv (fst to) (snd to))
                         cs (combine ts os))
      | _, _, _ => None
      end
  | alias e' _ => eval df e'
  end.

(** [df.with_columns(exprs)]: every expression is evaluated on [df]; a
    result replaces the column of its name, or is added after the last. *)
Definition with_columns (df : DataFrame) (exprs : list expr) : option DataFrame :=
  fold_left (fun acc e =>
               match acc, eval df e with
               | Some out, Some cells => Some (Py.set out (output_name e) cells)
               | _, _ => None
               end)
            exprs (Some df).

End Polars.

(** ** client.py *)

Definition API_URL : string := "https://api.jstage.jst.go.jp/searchapi/do".
Definition DEFAULT_STEP : Z := 1000.

Definition ALLOWED_FIELDS : list string := ["article"; "abst"; "text"; "keyword"].

Definition SEARCH_PARAM_KEYS : list string :=
  ["material"; "article"; "author"; "affil"; "keyword"; "abst"; "text";
   "issn"; "cdjournal"].

(** [x in s] for a set of strings. *)
Definition in_set (x : string) (s : list string) : bool :=
  existsb (String.eqb x) s.

(** The exceptions that leave [fetch]. *)
Inductive exn : Type :=
| ValueError (msg : string)               (* raise ValueError(msg) *)
| IntValueError (why : Py.int_error)      (* the ValueError of int() *)
| JStageAPIError (msg : string)
| ComputeError                            (* polars, from pl.DataFrame *)
| ColumnNotFoundError                     (* polars, from with_columns *)
| OtherError (class_name msg : string).   (* raised by a library call *)

(** The Python class of an exception. *)
Definition exception_class (e : exn) : string :=
  match e with
  | ValueError _ | IntValueError _ => "ValueError"
  | JStageAPIError _ => "JStageAPIError"
  | ComputeError => "ComputeError"
  | ColumnNotFoundError => "ColumnNotFoundError"
  | OtherError class_name _ => class_name
  end.

(** The [sleep] argument, as [time.sleep(float(sleep))] takes it. *)
Inductive Sleep : Type :=
| Seconds             (* a pause that time.sleep accepts *)
| Refused (e : exn).  (* time.sleep raises: ValueError for a negative value
                         or NaN, OverflowError for a value too large *)

Record FetchResult : Type := mkFetchResult {
  df : DataFrame;
  total_results : option Z
}.

(** The arguments of [fetch] that decide its control flow.  [timeout] only
    reaches [session.get], and the session is the transport below. *)
Record Args : Type := mkArgs {
  target_word : option string;
  year : Z;
  field : string;
  max_records : Z;
  sleep : Sleep;
  step : Z;
  material : option string;
  author : option string;
  affil : option string;
  issn : option string;
  cdjournal : option string
}.

(** What one [session.get] and the parse of its body come to. *)
Inductive Reply : Type :=
| RequestException (e : string)   (* get() or raise_for_status() raised it *)
| OtherException (e : exn)        (* get() raised something else *)
| NotXML                          (* etree.fromstring raised *)
| Parsed (root : node).

(** The reply to the n-th request (from 0) for a URL. *)
Definition Transport : Type := nat -> string -> Reply.

Definition _q (s : string) : string := Py.quote s.

Definition _get_result_status (root : node) : option string :=
  match texts_under [LocalName "status"; LocalName "result"] [] root with
  | s0 :: _ =>
      let s := Py.strip s0 in
      if Py.nonempty s then Some s else None
  | [] => None
  end.

(** The first text of a totalResults query, when it is not blank. *)
Definition first_nonblank (texts : list string) : option string :=
  match texts with
  | t0 :: _ =>
      let t := Py.strip t0 in
      if Py.nonempty t then Some t else None
  | [] => None
  end.

Definition _get_total_results_first (root : node) : Py.int_error + option Z :=
  match first_nonblank (texts_under [QName "opensearch" "totalResults"] [] root) with
  | Some t =>
      match Py.int t with inr n => inr (Some n) | inl e => inl e end
  | None =>
      match first_nonblank (texts_under [LocalName "totalResults"] [] root) with
      | Some t2 =>
          match Py.int t2 with inr n => inr (Some n) | inl e => inl e end
      | None => inr None
      end
  end.

(** The dictionary [fetch] builds for one entry. *)
Definition record_of (entry : node) : Py.dict value :=
  [ ("author", VList (authors_local entry));
    ("article_title", of_option (pick_ja_or_first_tag_local entry "article_title"));
    ("material_title", of_option (pick_ja_or_first_tag_local entry "material_title"));
    ("cdjournal", of_option (get_first entry "atom" "cdjournal"));
    ("p_issn", of_option (get_first entry "prism" "issn"));
    ("o_issn", of_option (get_first entry "prism" "eIssn"));
    ("article_link", of_option (pick_ja_or_first_tag_local entry "article_link"));
    ("pubyear", of_option (get_first entry "atom" "pubyear"));
    ("doi", of_option (get_first entry "prism" "doi"));
    ("volume", of_option (get_first entry "prism" "volume"));
    ("cdvols",
      match xpath_local entry (LocalPath ["cdvols"] ChildText) with
      | XText t :: _ => VStr (Py.strip t)
      | XElem _ :: _ => VNone
      | [] => VNone
      end);
    ("number", of_option (get_first entry "prism" "number"));
    ("starting_page", of_option (get_first entry "prism" "startingPage"));
    ("ending_page", of_option (get_first entry "prism" "endingPage")) ].

(** The validated search parameters, without [start] and [count]. *)
Definition base_params (a : Args) : Py.dict string :=
  let p0 := [("service", "3"); ("pubyearfrom", Py.str (year a))] in
  let p1 :=
    match target_word a with
    | Some w => if Py.nonempty (Py.strip w)
                then Py.set p0 (field a) (Py.strip w) else p0
    | None => p0
    end in
  let p2 := match material a with
            | Some m => if Py.nonempty m then Py.set p1 "material" m else p1
            | None => p1 end in
  let p3 := match author a with
            | Some m => if Py.nonempty m then Py.set p2 "author" m else p2
            | None => p2 end in
  let p4 := match affil a with
            | Some m => if Py.nonempty m then Py.set p3 "affil" m else p3
            | None => p3 end in
  let p5 := match issn a with
            | Some m => if Py.nonempty m then Py.set p4 "issn" m else p4
            | None => p4 end in
  match cdjournal a with
  | Some m => if Py.nonempty m then Py.set p5 "cdjournal" m else p5
  | None => p5
  end.

(** The checks of [fetch] before its loop: the exception raised, if any. *)
Definition validate (a : Args) : option exn :=
  if negb (in_set (field a) ALLOWED_FIELDS) then
    Some (ValueError "field must be one of ['abst', 'article', 'keyword', 'text']")
  else if max_records a <=? 0 then Some (ValueError "max_records must be > 0")
  else if step a <=? 0 then Some (ValueError "step must be > 0")
  else if negb (existsb (Py.contains (base_params a)) SEARCH_PARAM_KEYS) then
    Some (ValueError
      ("At least one search parameter must be provided: "
       ++ "target_word (with field), material, author, affil, issn, or cdjournal."))
  else None.

(** The variables of the loop. *)
Record State : Type := mkState {
  all_data : list (Py.dict value);
  start_idx : Z;
  captured : option Z            (* the local variable total_results *)
}.

Definition initial : State := mkState [] 1 None.

(** [params] of one iteration. *)
Definition page_params (a : Args) (st : State) : Py.dict string :=
  Py.set (Py.set (base_params a) "start" (Py.str (start_idx st)))
         "count" (Py.str (step a)).

Definition page_url (params : Py.dict string) : string :=
  API_URL ++ "?"
  ++ Py.join "&" (map (fun kv => fst kv ++ "=" ++ _q (snd kv)) params).

(** The [for entry in entries] loop with its [break]. *)
Fixpoint append_entries (limit : Z) (acc : list (Py.dict value))
  (entries : list node) : list (Py.dict value) :=
  match entries with
  | [] => acc
  | entry :: rest =>
      let acc' := (acc ++ [record_of entry])%list in
      if Z.of_nat (length acc') >=? limit then acc'
      else append_entries limit acc' rest
  end.

(** The [break] statements of the [while] loop, in source order. *)
Inductive break_at : Type :=
| FirstPageEmpty      (* start_idx == 1 and not entries *)
| NoEntries           (* not entries *)
| NoProgress          (* len(all_data) == prev_len *)
| LimitReached        (* len(all_data) >= max_records *)
| PastTotal.          (* start_idx > total_results *)

(** How one iteration of the [while] loop ends. *)
Inductive step_result : Type :=
| Continue (st : State)                  (* time.sleep, next iteration *)
| Break (at_ : break_at) (st : State)
| Return (r : FetchResult)               (* the return on ERR_001 *)
| Raise (e : exn).

(** [status == sentinel] for a status that may be [None]. *)
Definition status_is (status : option string) (sentinel : string) : bool :=
  match status with
  | Some s => String.eqb s sentinel
  | None => false
  end.

(** [if total_results is None: total_results = _get_total_results_first(root)] *)
Definition capture (st : State) (root : node) : Py.int_error + option Z :=
  match captured st with
  | None => _get_total_results_first root
  | Some t => inr (Some t)
  end.

(** The rest of an iteration once the total is settled: the entries of the
    page are appended and the loop breaks or moves the cursor. *)
Definition turn_page (a : Args) (st : State) (total : option Z)
  (entries : list node) : step_result :=
  match entries with
  | [] =>
      if start_idx st =? 1
      then Break FirstPageEmpty (mkState (all_data st) (start_idx st) total)
      else Break NoEntries (mkState (all_data st) (start_idx st) total)
  | _ :: _ =>
      let prev_len := length (all_data st) in
      let data := append_entries (max_records a) (all_data st) entries in
      if Nat.eqb (length data) prev_len
      then Break NoProgress (mkState data (start_idx st) total)
      else if Z.of_nat (length data) >=? max_records a
      then Break LimitReached (mkState data (start_idx st) total)
      else
        let next := start_idx st + step a in
        if match total with Some t => next >? t | None => false end
        then Break PastTotal (mkState data next total)
        else
          match sleep a with
          | Seconds => Continue (mkState data next total)
          | Refused e => Raise e
          end
  end.

(** The body of the [while] loop after the request: from the reply to the
    end of the iteration. *)
Definition iteration (a : Args) (st : State) (reply : Reply) : step_result :=
  match reply with
  | RequestException e => Raise (JStageAPIError ("Request failed: " ++ e))
  | OtherException e => Raise e
  | NotXML => Raise (JStageAPIError "Failed to parse XML response")
  | Parsed root =>
      if status_is (_get_result_status root) "ERR_001"
      then Return (mkFetchResult [] (Some 0))
      else
        match capture st root with
        | inl e => Raise (IntValueError e)
        | inr total =>
            turn_page a st total (descendant_elems (QName "atom" "entry") root)
        end
  end.

(** How the [while] loop ends. *)
Inductive loop_result : Type :=
| Broke (at_ : break_at) (st : State)
| Returned (r : FetchResult)
| Raised (e : exn)
| StillRunning.                          (* the fuel of the model ran out *)

Definition ended (r : step_result) : loop_result :=
  match r with
  | Continue _ => StillRunning
  | Break at_ st => Broke at_ st
  | Return r => Returned r
  | Raise e => Raised e
  end.

(** The reply the [n]-th iteration receives when it starts in [st]. *)
Definition reply_at (a : Args) (transport : Transport) (n : nat) (st : State)
  : Reply :=
  transport n (page_url (page_params a st)).

(** The [while True] loop from its [n]-th iteration.  The log holds the loop
    variables at the head of every iteration run; each of them sends one
    request, with [page_params]. *)
Fixpoint loop (fuel : nat) (a : Args) (transport : Transport) (n : nat)
  (st : State) : list State * loop_result :=
  match fuel with
  | O => ([], StillRunning)
  | S fuel' =>
      match iteration a st (reply_at a transport n st) with
      | Continue st' =>
          let rest := loop fuel' a transport (S n) st' in
          (st :: fst rest, snd rest)
      | r => ([st], ended r)
      end
  end.

(** The requests of a log, and the replies to them. *)
Definition requests (a : Args) (log : list State) : list (Py.dict string) :=
  map (page_params a) log.

Fixpoint replies_from (a : Args) (transport : Transport) (n : nat)
  (log : list State) : list Reply :=
  match log with
  | [] => []
  | st :: rest => reply_at a transport n st :: replies_from a transport (S n) rest
  end.

Definition replies (a : Args) (transport : Transport) (log : list State)
  : list Reply :=
  replies_from a transport 0 log.

(** The url_doi expression of [fetch]. *)
Definition url_doi_expr : expr :=
  alias (when_then_otherwise
           (is_not_null (col "doi"))
           (concat_str [lit (VStr "https://doi.org/"); col "doi"])
           (lit VNone))
        "url_doi".

Definition typed_columns : list expr :=
  [ cast (col "p_issn") Utf8;
    cast (col "o_issn") Utf8;
    cast (col "cdjournal") Utf8;
    cast (col "author") ListUtf8;
    cast (col "pubyear") Int32;
    cast (col "starting_page") Int32;
    cast (col "ending_page") Int32;
    url_doi_expr ].

(** How a call of [fetch] ends. *)
Inductive outcome : Type :=
| Ok (r : FetchResult)
| Error (e : exn)
| Diverges.

Section Fetch.

Variable str_to_int32 : string -> option Z.

(** [if not df.is_empty(): df = df.with_columns([...])]; [None] where
    [with_columns] raises. *)
Definition typed (df0 : DataFrame) : option DataFrame :=
  if negb (is_empty df0) then with_columns str_to_int32 df0 typed_columns
  else Some df0.

(** The table [fetch] builds from the accumulated records; [None] where
    polars raises. *)
Definition table (data : list (Py.dict value)) : option DataFrame :=
  match DataFrame_of_dicts data with
  | None => None
  | Some df0 => typed df0
  end.

(** The code of [fetch] after its loop. *)
Definition assemble (data : list (Py.dict value)) (total : option Z) : outcome :=
  match DataFrame_of_dicts data with
  | None => Error ComputeError
  | Some df0 =>
      match typed df0 with
      | None => Error ColumnNotFoundError
      | Some t =>
          Ok (mkFetchResult t
                (match total with
                 | None => Some (Z.of_nat (length data))
                 | Some n => Some n
                 end))
      end
  end.

(** The loop of a call, with fuel for [max_records] iterations. *)
Definition run (a : Args) (transport : Transport) : list State * loop_result :=
  loop (Z.to_nat (max_records a)) a transport 0 initial.

Definition finish (r : loop_result) : outcome :=
  match r with
  | Returned r => Ok r
  | Raised e => Error e
  | Broke _ st => assemble (all_data st) (captured st)
  | StillRunning => Diverges
  end.

(** [fetch]: the log of its loop and the outcome of the call. *)
Definition fetch (a : Args) (transport : Transport) : list State * outcome :=
  match validate a with
  | Some e => ([], Error e)
  | None => (fst (run a transport), finish (snd (run a transport)))
  end.

End Fetch.

(** ** Notions the properties are stated with *)

(** The columns of the documented output table, in order. *)
Definition documented_columns : list string :=
  ["author"; "article_title"; "material_title"; "cdjournal"; "p_issn";
   "o_issn"; "article_link"; "pubyear"; "doi"; "volume"; "cdvols"; "number";
   "starting_page"; "ending_page"; "url_doi"].

(** The cell of column [name] in row [i]. *)
Definition cell (t : DataFrame) (name : string) (i : nat) : option value :=
  match column t name with
  | Some cells => nth_error cells i
  | None => None
  end.

(** A reply carries the sentinel status. *)
Definition is_sentinel (reply : Reply) : bool :=
  match reply with
  | Parsed root =>
      status_is (_get_result_status root) "ERR_001"
  | _ => false
  end.

(** The total a reply reports, when it reports one. *)
Definition reported_total (reply : Reply) : option Z :=
  match reply with
  | Parsed root =>
      match _get_total_results_first root with
      | inr (Some n) => Some n
      | _ => None
      end
  | _ => None
  end.

(** The entries of a reply. *)
Definition entries_of (reply : Reply) : list node :=
  match reply with
  | Parsed root => descendant_elems (QName "atom" "entry") root
  | _ => []
  end.

Fixpoint first_some {A} (l : list (option A)) : option A :=
  match l with
  | [] => None
  | Some x :: _ => Some x
  | None :: rest => first_some rest
  end.

(** No search term in the arguments: no usable [target_word], and none of
    the five other search parameters. *)
Definition no_search_term (a : Args) : Prop :=
  match target_word a with
  | Some w => Py.strip w = EmptyString
  | None => True
  end
  /\ Py.truthy (material a) = false /\ Py.truthy (author a) = false
  /\ Py.truthy (affil a) = false /\ Py.truthy (issn a) = false
  /\ Py.truthy (cdjournal a) = false.

(** A string-to-Int32 parser to run the model with: an optional sign and
    decimal digits, within the 32-bit range. *)
Fixpoint digits_only (s : string) (acc : Z) : option Z :=
  match s with
  | EmptyString => Some acc
  | String c rest =>
      if Py.is_digit c then digits_only rest (10 * acc + Py.digit_value c)
      else None
  end.

Definition decimal_int32 (s : string) : option Z :=
  let v := match s with
           | EmptyString => None
           | String "-" EmptyString | String "+" EmptyString => None
           | String "-" rest => option_map Z.opp (digits_only rest 0)
           | String "+" rest => digits_only rest 0
           | _ => digits_only s 0
           end in
  match v with
  | Some z => if (- 2147483648 <=? z) && (z <=? 2147483647) then Some z else None
  | None => None
  end.

(** ** Sample documents *)

Definition atom (name : string) (kids : list node) : node :=
  Elem "http://www.w3.org/2005/Atom" name kids.

Definition prism (name : string) (kids : list node) : node :=
  Elem "http://prismstandard.org/namespaces/basic/2.0/" name kids.

Definition opensearch (name : string) (kids : list node) : node :=
  Elem "http://a9.com/-/spec/opensearch/1.1/" name kids.

(** An entry with a title, an author and, possibly, a DOI. *)
Definition sample_entry (title : string) (doi : option string) : node :=
  atom "entry"
    ([ atom "article_title" [atom "ja" [Text title]];
       atom "author" [atom "ja" [atom "name" [Text "Yamada"]]];
       atom "pubyear" [Text "2020"] ]
     ++ match doi with
        | Some d => [prism "doi" [Text d]]
        | None => []
        end)%list.

(** A feed with an optional totalResults text and the given entries. *)
Definition feed (total : option string) (entries : list node) : node :=
  atom "feed"
    (match total with
     | Some t => [opensearch "totalResults" [Text t]]
     | None => []
     end ++ entries)%list.

(** The reply J-STAGE sends when nothing matches. *)
Definition sentinel_feed : node :=
  atom "feed" [atom "result" [atom "status" [Text "ERR_001"];
                              atom "message" [Text "No results"]]].

Definition three_entries : list node :=
  [ sample_entry "A" (Some "10.1234/abcd");
    sample_entry "B" None;
    sample_entry "C" (Some "10.1/x") ].

Definition sample_args (limit page : Z) : Args :=
  mkArgs (Some "graph") 1950 "article" limit Seconds page
         None None None None None.

(** A call with a year and nothing to search for. *)
Definition year_only : Args :=
  mkArgs None 2020 "article" 20000 Seconds DEFAULT_STEP
         None None None None None.

(** A server that answers every request with the same three entries and
    reports no total. *)
Definition endless_threes : Transport :=
  fun _ _ => Parsed (feed None three_entries).

(** A server that reports a total of 100 with three entries, then answers
    with the sentinel. *)
Definition total_then_sentinel : Transport :=
  fun n _ =>
    match n with
    | O => Parsed (feed (Some "100") three_entries)
    | S _ => Parsed sentinel_feed
    end.

(** A server that reports a total of 100 on its first page only. *)
Definition total_then_none : Transport :=
  fun n _ =>
    match n with
    | O => Parsed (feed (Some "100") three_entries)
    | S _ => Parsed (feed None three_entries)
    end.

(** A server whose result set is its first page: three entries of three. *)
Definition three_of_three : Transport :=
  fun _ _ => Parsed (feed (Some "3") three_entries).

(** A server whose second request fails. *)
Definition fails_second : Transport :=
  fun n _ =>
    match n with
    | O => Parsed (feed None three_entries)
    | S _ => RequestException "timed out"
    end.

(** The reply of the service to a request it refuses, with another status
    than the sentinel. *)
Definition refused_feed : node :=
  atom "feed" [atom "result" [atom "status" [Text "ERR_012"];
                              atom "message" [Text "No search term"]]].

(** A call whose pause [time.sleep] refuses. *)
Definition negative_sleep (limit page : Z) : Args :=
  mkArgs (Some "graph") 1950 "article" limit
         (Refused (ValueError "sleep length must be non-negative")) page
         None None None None None.

(** A server whose first page has no entry but reports a total of 5. *)
Definition empty_with_total : Transport :=
  fun _ _ => Parsed (feed (Some "5") []).

(** A server whose totalResults element does not hold a number. *)
Definition bad_total : Transport :=
  fun _ _ => Parsed (feed (Some "abc") three_entries).

(** A server with three entries on its first page and no entry after. *)
Definition three_then_none : Transport :=
  fun n _ =>
    match n with
    | O => Parsed (feed None three_entries)
    | S _ => Parsed (feed None [])
    end.

(** A hundred entries without a DOI, then one with a DOI. *)
Definition late_doi : list node :=
  (repeat (sample_entry "A" None) 100 ++ [sample_entry "B" (Some "10.1/x")])%list.

(** A server with the 101 entries of [late_doi] on its first page and no
    entry after. *)
Definition late_doi_page : Transport :=
  fun n _ =>
    match n with
    | O => Parsed (feed None late_doi)
    | S _ => Parsed (feed None [])
    end.

(** A run of the [while] loop from its [n]-th iteration in state [st], as a
    relation: the states at the head of its iterations and how it ends. *)
Inductive runs (a : Args) (transport : Transport)
  : nat -> State -> list State -> loop_result -> Prop :=
| runs_last n st :
    (forall st', iteration a st (reply_at a transport n st) <> Continue st') ->
    runs a transport n st [st] (ended (iteration a st (reply_at a transport n st)))
| runs_next n st st' log res :
    iteration a st (reply_at a transport n st) = Continue st' ->
    runs a transport (S n) st' log res ->
    runs a transport n st (st :: log) res.

(** The accumulator holds records built by [record_of]. *)
Definition records (data : list (Py.dict value)) : Prop :=
  exists es, data = map record_of es.

(** What holds at the head of the [n]-th iteration of a validated call. *)
Definition head_inv (a : Args) (n : nat) (st : State) : Prop :=
  Z.of_nat (length (all_data st)) < max_records a
  /\ records (all_data st)
  /\ start_idx st = 1 + Z.of_nat n * step a.

(** The column a key of the record dictionaries gives. *)
Definition key_column (k : string) (es : list node) : Series :=
  map (fun e => match Py.get (record_of e) k with
                | Some v => v
                | None => VNone
                end) es.

(** The url_doi cell of a doi cell. *)
Definition url_of_doi (d : value) : value :=
  match d with
  | VStr s => VStr ("https://doi.org/" ++ s)
  | _ => VNone
  end.

(** The keys of the record dictionaries, in order. *)
Definition record_keys : list string :=
  ["author"; "article_title"; "material_title"; "cdjournal"; "p_issn";
   "o_issn"; "article_link"; "pubyear"; "doi"; "volume"; "cdvols"; "number";
   "starting_page"; "ending_page"].

(** Can polars build the frame of the records of these entries? *)
Definition records_build (es : list node) : bool :=
  forallb (fun k => column_builds (key_column k es)) record_keys.

(** The table of a non-empty list of entries, column by column. *)
Definition typed_table (str_to_int32 : string -> option Z) (es : list node)
  : DataFrame :=
  [ ("author", map (cast_cell str_to_int32 ListUtf8) (key_column "author" es));
    ("article_title", key_column "article_title" es);
    ("material_title", key_column "material_title" es);
    ("cdjournal", map (cast_cell str_to_int32 Utf8) (key_column "cdjournal" es));
    ("p_issn", map (cast_cell str_to_int32 Utf8) (key_column "p_issn" es));
    ("o_issn", map (cast_cell str_to_int32 Utf8) (key_column "o_issn" es));
    ("article_link", key_column "article_link" es);
    ("pubyear", map (cast_cell str_to_int32 Int32) (key_column "pubyear" es));
    ("doi", key_column "doi" es);
    ("volume", key_column "volume" es);
    ("cdvols", key_column "cdvols" es);
    ("number", key_column "number" es);
    ("starting_page",
      map (cast_cell str_to_int32 Int32) (key_column "starting_page" es));
    ("ending_page",
      map (cast_cell str_to_int32 Int32) (key_column "ending_page" es));
    ("url_doi", map url_of_doi (key_column "doi" es)) ].

(** The total the loop holds after a reply: the one captured before, or
    else the one the reply reports. *)
Definition settled (st : State) (reply : Reply) : option Z :=
  match captured st with
  | Some c => Some c
  | None => reported_total reply
  end.

(** A page of a result set that goes on: no sentinel, [k] entries, and a
    total, if one is reported, beyond the next cursor. *)
Definition page_of (k : nat) (a : Args) (reply : Reply) : Prop :=
  is_sentinel reply = false
  /\ length (entries_of reply) = k
  /\ match reply with
     | Parsed root =>
         match _get_total_results_first root with
         | inr None => True
         | inr (Some t) => 1 + step a <= t
         | inl _ => False
         end
     | _ => False
     end.

(** ** cli.py *)

(** [df.with_columns(pl.col("author").list.join("; ").alias("author"))]:
    [None] when the table has no author column (polars raises
    ColumnNotFoundError). *)
Definition join_authors (t : DataFrame) : option DataFrame :=
  match column t "author" with
  | None => None
  | Some cells =>
      Some (Py.set t "author"
              (map (fun v => match v with
                             | VList names => VStr (Py.join "; " names)
                             | _ => VNone
                             end) cells))
  end.

Module Cli.

(** What [parse_args] hands to [main]: [argparse] has converted the numbers
    and checked the field against its choices. *)
Record Namespace : Type := mkNamespace {
  query : string;
  year : Z;
  field : string;
  max_records : Z;
  sleep : Sleep;
  out : string
}.

(** The choices of [--field]. *)
Definition FIELD_CHOICES : list string := ["article"; "abst"; "text"].

(** The call [fetch(args.query, year=..., field=..., max_records=...,
    sleep=...)]: the other parameters keep their defaults. *)
Definition fetch_args (ns : Namespace) : Args :=
  mkArgs (Some (query ns)) (year ns) (field ns) (max_records ns) (sleep ns)
         DEFAULT_STEP None None None None None.

(** What [main] does to the outside after the requests, in order.  The
    calls of the file system are taken to succeed, and the bytes the polars
    writers produce are not modelled: a write is the table and the path. *)
Inductive effect : Type :=
| MakeParents (path : string)              (* out.parent.mkdir(...) *)
| WriteCsv (t : DataFrame) (path : string)
| WriteJson (t : DataFrame) (path : string)
| WriteParquet (t : DataFrame) (path : string)
| Print (line : string).

(** How [main] ends. *)
Inductive ending : Type :=
| Returns0
| SystemExit (msg : string)
| Raises (e : exn)
| Hangs.

(** The line [main] prints without [--out]. *)
Definition summary (result : FetchResult) : string :=
  "rows=" ++ Py.str (Z.of_nat (height (df result)))
  ++ " total_results="
  ++ match total_results result with
     | Some t => Py.str t
     | None => "None"
     end.

Section Main.

Variable str_to_int32 : string -> option Z.

(** [Path(out).suffix.lower()], from pathlib. *)
Variable suffix_lower : string -> string.

(** [main] from the parsed arguments: the log of the loop of [fetch], the
    effects, and the ending. *)
Definition main (ns : Namespace) (transport : Transport)
  : list State * list effect * ending :=
  let call := fetch str_to_int32 (fetch_args ns) transport in
  match snd call with
  | Error e => (fst call, [], Raises e)
  | Diverges => (fst call, [], Hangs)
  | Ok result =>
      if Py.nonempty (out ns) then
        let suf := suffix_lower (out ns) in
        if String.eqb suf ".csv" then
          match join_authors (df result) with
          | Some t =>
              (fst call, [MakeParents (out ns); WriteCsv t (out ns)], Returns0)
          | None =>
              (fst call, [MakeParents (out ns)], Raises ColumnNotFoundError)
          end
        else if String.eqb suf ".json" then
          (fst call, [MakeParents (out ns); WriteJson (df result) (out ns)],
           Returns0)
        else if String.eqb suf ".parquet" then
          (fst call, [MakeParents (out ns); WriteParquet (df result) (out ns)],
           Returns0)
        else
          (fst call, [MakeParents (out ns)],
           SystemExit "out must end with .csv or .json or .parquet")
      else (fst call, [Print (summary result)], Returns0)
  end.

End Main.

End Cli.

(** ** More notions for the properties *)

(** Every character of a string passes a test. *)
Fixpoint string_forall (p : ascii -> bool) (s : string) : bool :=
  match s with
  | EmptyString => true
  | String c rest => p c && string_forall p rest
  end.

(** The characters of a percent-encoded value. *)
Definition url_safe (c : ascii) : bool :=
  Py.unreserved c || Ascii.eqb c "%".

(** A string that [strip] gives back: not empty, no space at either end. *)
Definition trimmed (s : string) : Prop :=
  s <> EmptyString /\ Py.strip s = s.

(** A string that does not start with a space. *)
Definition starts_unspaced (s : string) : Prop :=
  match s with
  | String c _ => Py.isspace c = false
  | EmptyString => True
  end.

(** Induction on a document, with the property for the children. *)
Fixpoint node_induction (P : node -> Prop)
  (HText : forall s, P (Text s))
  (HComment : forall s, P (Comment s))
  (HElem : forall ns name kids, Forall P kids -> P (Elem ns name kids))
  (n : node) : P n :=
  match n with
  | Text s => HText s
  | Comment s => HComment s
  | Elem ns name kids =>
      HElem ns name kids
        ((fix all (l : list node) : Forall P l :=
            match l with
            | [] => Forall_nil P
            | k :: rest =>
                Forall_cons k (node_induction P HText HComment HElem k)
                            (all rest)
            end) kids)
  end.

(** The keys of a dictionary, in order. *)
Definition keys {V} (d : Py.dict V) : list string := map fst d.

(** The keys of the base parameters: the two fixed ones, then search keys
    without repetition. *)
Definition search_keys_after_fixed (ks : list string) : Prop :=
  exists search,
    ks = "service" :: "pubyearfrom" :: search
    /\ NoDup search
    /\ forall k, In k search -> In k SEARCH_PARAM_KEYS.

(** The entries of the pages received, in the order received. *)
Definition received_entries (a : Args) (transport : Transport)
  (log : list State) : list node :=
  flat_map entries_of (replies a transport log).

(** The type [fetch] gives the column of a key. *)
Definition column_type (k : string) : option dtype :=
  if in_set k ["p_issn"; "o_issn"; "cdjournal"] then Some Utf8
  else if in_set k ["pubyear"; "starting_page"; "ending_page"] then Some Int32
  else if String.eqb k "author" then Some ListUtf8
  else None.

(** A suffix function to run [main] with: the text from the last dot on,
    lowered on the letters A to Z; this is the suffix of pathlib for a path
    whose last dot lies inside its file name. *)
Fixpoint from_last_dot (s : string) : option string :=
  match s with
  | EmptyString => None
  | String c rest =>
      match from_last_dot rest with
      | Some suf => Some suf
      | None => if Ascii.eqb c "." then Some s else None
      end
  end.

Definition lower_ascii (c : ascii) : ascii :=
  let n := N_of_ascii c in
  if ((65 <=? n) && (n <=? 90))%N then ascii_of_N (n + 32) else c.

Fixpoint lower (s : string) : string :=
  match s with
  | EmptyString => EmptyString
  | String c rest => String (lower_ascii c) (lower rest)
  end.

Definition plain_suffix (name : string) : string :=
  match from_last_dot name with
  | Some suf => lower suf
  | None => EmptyString
  end.

(** A command line: the word, the limit and the output path. *)
Definition sample_cli (word : string) (limit : Z) (path : string)
  : Cli.Namespace :=
  Cli.mkNamespace word 1950 "article" limit Seconds path.

(** * Properties *)

(** ** Sanity checks of the model on sample inputs *)

Example strip_spaces : Py.strip "  ERR_001 " = "ERR_001".
Proof. reflexivity. Qed.

Example strip_blank : Py.strip "   " = "".
Proof. reflexivity. Qed.

Example str_1001 : Py.str 1001 = "1001".
Proof. reflexivity. Qed.

Example str_negative : Py.str (-5) = "-5".
Proof. reflexivity. Qed.

Example int_signed : Py.int " -1_000 " = inr (-1000).
Proof. reflexivity. Qed.

Example int_trailing_underscore : Py.int "12_" = inl (Py.InvalidLiteral "12_").
Proof. reflexivity. Qed.

Example quote_reserved : _q "a b/c" = "a%20b%2Fc".
Proof. reflexivity. Qed.

Example first_url :
  page_url (page_params (sample_args 5 3) initial)
  = "https://api.jstage.jst.go.jp/searchapi/do?service=3&pubyearfrom=1950&article=graph&start=1&count=3".
Proof. reflexivity. Qed.

Example nested_status_in_document_order :
  texts_under [LocalName "status"; LocalName "result"] []
    (atom "result" [atom "result" [atom "status" [Text "inner"]];
                    atom "status" [Text "outer"]])
  = ["inner"; "outer"].
Proof. reflexivity. Qed.

Example sample_record_authors :
  authors_local (sample_entry "A" None) = ["Yamada"].
Proof. reflexivity. Qed.

Example generic_author_fallback :
  authors_local (atom "entry" [atom "author" [atom "name" [Text " Sato "]]])
  = ["Sato"].
Proof. reflexivity. Qed.

Example text_after_a_comment :
  get_first (atom "entry" [prism "doi" [Comment "c"; Text "10.1/x"]])
            "prism" "doi"
  = None
  /\ first_local (atom "entry" [atom "link" [Comment "c"; Text " u "]])
                 (LocalPath ["link"] AnyText)
     = Some "u".
Proof. split; reflexivity. Qed.

Example string_after_a_hundred_nulls :
  column_builds (repeat VNone 100 ++ [VStr "10.1/x"])%list = false
  /\ column_builds (VStr "10.1/x" :: repeat VNone 100) = true
  /\ column_builds (repeat VNone 99 ++ [VStr "10.1/x"; VStr "10.1/y"])%list
     = true.
Proof. repeat split; reflexivity. Qed.

(** ** Dictionaries *)

Lemma contains_set {V} (d : Py.dict V) k v k' :
  Py.contains (Py.set d k v) k' = Py.contains d k' || String.eqb k k'.
Proof.
  unfold Py.contains.
  induction d as [|[k0 v0] d IH]; simpl.
  - apply orb_false_r.
  - destruct (String.eqb_spec k0 k) as [->|Hne]; simpl.
    + destruct (String.eqb k k'); simpl; [reflexivity | now rewrite orb_false_r].
    + rewrite IH. apply orb_assoc.
Qed.

Lemma get_set_same {V} (d : Py.dict V) k v :
  Py.get (Py.set d k v) k = Some v.
Proof.
  induction d as [|[k0 v0] d IH]; simpl.
  - now rewrite String.eqb_refl.
  - destruct (String.eqb_spec k0 k) as [->|Hne]; simpl.
    + now rewrite String.eqb_refl.
    + destruct (String.eqb_spec k0 k); [contradiction | exact IH].
Qed.

Lemma get_set_other {V} (d : Py.dict V) k v k' :
  k <> k' -> Py.get (Py.set d k v) k' = Py.get d k'.
Proof.
  intros Hne. induction d as [|[k0 v0] d IH]; simpl.
  - destruct (String.eqb_spec k k'); [contradiction | reflexivity].
  - destruct (String.eqb_spec k0 k) as [->|Hne0]; simpl.
    + destruct (String.eqb_spec k k'); [contradiction | reflexivity].
    + now rewrite IH.
Qed.

(** ** The [for] loop over the entries *)

Arguments record_of : simpl never.

Lemma append_entries_grows limit acc entries :
  entries <> [] ->
  (length acc < length (append_entries limit acc entries))%nat.
Proof.
  revert acc. induction entries as [|e rest IH]; intros acc Hne.
  - contradiction.
  - cbn [append_entries]. destruct (Z.of_nat _ >=? limit).
    + rewrite length_app. cbn [length]. lia.
    + destruct rest as [|e' rest'].
      * cbn [append_entries]. rewrite length_app. cbn [length]. lia.
      * specialize (IH (acc ++ [record_of e])%list ltac:(discriminate)).
        rewrite length_app in IH. cbn [length] in IH. lia.
Qed.

Lemma append_entries_take limit acc entries :
  Z.of_nat (length acc) < limit ->
  append_entries limit acc entries
  = (acc ++ map record_of
               (firstn (Z.to_nat (limit - Z.of_nat (length acc))) entries))%list.
Proof.
  revert acc. induction entries as [|e rest IH]; intros acc Hlt.
  - simpl. now rewrite firstn_nil, app_nil_r.
  - simpl append_entries.
    replace (Z.to_nat (limit - Z.of_nat (length acc)))
      with (S (Z.to_nat (limit - Z.of_nat (length acc) - 1))) by lia.
    simpl firstn. simpl map.
    destruct (Z.geb_spec (Z.of_nat (length (acc ++ [record_of e]))) limit)
      as [Hge|Hlt'].
    + rewrite length_app in Hge. simpl in Hge.
      replace (Z.to_nat (limit - Z.of_nat (length acc) - 1)) with O by lia.
      reflexivity.
    + rewrite IH by exact Hlt'.
      rewrite length_app. simpl length. rewrite <- app_assoc. simpl.
      do 4 f_equal. lia.
Qed.

Lemma append_entries_bound limit acc entries :
  Z.of_nat (length acc) < limit ->
  Z.of_nat (length (append_entries limit acc entries)) <= limit.
Proof.
  intros Hlt. rewrite append_entries_take by exact Hlt.
  rewrite length_app, length_map, length_firstn. lia.
Qed.

Lemma append_entries_records limit acc entries :
  records acc -> records (append_entries limit acc entries).
Proof.
  revert acc. induction entries as [|e rest IH]; intros acc [es Hes].
  - exists es. exact Hes.
  - simpl.
    assert (Hr : records (acc ++ [record_of e])).
    { exists (es ++ [e])%list. rewrite map_app. simpl. now rewrite Hes. }
    destruct (_ >=? _); [exact Hr | now apply IH].
Qed.

(** ** One iteration *)

Lemma turn_page_continue a st total entries st' :
  turn_page a st total entries = Continue st' ->
  entries <> []
  /\ all_data st' = append_entries (max_records a) (all_data st) entries
  /\ Z.of_nat (length (all_data st')) < max_records a
  /\ start_idx st' = start_idx st + step a
  /\ captured st' = total
  /\ (forall t, total = Some t -> start_idx st' <= t).
Proof.
  intros H. unfold turn_page in H.
  destruct entries as [|e rest].
  - destruct (start_idx st =? 1); discriminate.
  - destruct (Nat.eqb _ _); [discriminate|].
    destruct (Z.geb_spec
                (Z.of_nat (length
                   (append_entries (max_records a) (all_data st) (e :: rest))))
                (max_records a)); [discriminate|].
    destruct (match total with
              | Some t => start_idx st + step a >? t
              | None => false
              end) eqn:Epast; [discriminate|].
    destruct (sleep a); [|discriminate].
    inversion H; subst st'. cbn [all_data start_idx captured].
    repeat split; try discriminate; auto.
    intros t Ht. subst total.
    destruct (Z.gtb_spec (start_idx st + step a) t); [discriminate | lia].
Qed.

Lemma turn_page_break a st total entries at_ st' :
  turn_page a st total entries = Break at_ st' ->
  captured st' = total
  /\ at_ <> NoProgress
  /\ match at_ with
     | FirstPageEmpty | NoEntries => entries = [] /\ all_data st' = all_data st
     | _ => entries <> []
            /\ all_data st' = append_entries (max_records a) (all_data st) entries
     end
  /\ (at_ = FirstPageEmpty -> start_idx st = 1)
  /\ (at_ = LimitReached -> max_records a <= Z.of_nat (length (all_data st')))
  /\ (at_ = PastTotal ->
      exists t, total = Some t /\ start_idx st' = start_idx st + step a
                /\ t < start_idx st').
Proof.
  intros H. unfold turn_page in H.
  destruct entries as [|e rest].
  - destruct (Z.eqb_spec (start_idx st) 1); inversion H; subst;
      cbn [all_data start_idx captured]; repeat split;
      try discriminate; auto.
  - pose proof (append_entries_grows (max_records a) (all_data st) (e :: rest)
                  ltac:(discriminate)) as Hgrow.
    destruct (Nat.eqb_spec
                (length (append_entries (max_records a) (all_data st) (e :: rest)))
                (length (all_data st))) as [Heq|_]; [lia|].
    destruct (Z.geb_spec
                (Z.of_nat (length
                   (append_entries (max_records a) (all_data st) (e :: rest))))
                (max_records a)).
    + inversion H; subst; cbn [all_data start_idx captured].
      repeat split; try discriminate; auto.
    + destruct total as [t|].
      * destruct (Z.gtb_spec (start_idx st + step a) t).
        -- inversion H; subst. cbn [all_data start_idx captured].
           repeat split; try discriminate; auto.
           intros _. exists t. repeat split; auto; lia.
        -- destruct (sleep a); discriminate.
      * destruct (sleep a); discriminate.
Qed.

Lemma is_sentinel_iteration a st reply :
  is_sentinel reply = true ->
  iteration a st reply = Return (mkFetchResult [] (Some 0)).
Proof.
  destruct reply as [e|e| |root]; cbn [is_sentinel]; try discriminate.
  intros H. cbn [iteration]. now rewrite H.
Qed.

Lemma iteration_return a st reply r :
  iteration a st reply = Return r ->
  is_sentinel reply = true /\ r = mkFetchResult [] (Some 0).
Proof.
  destruct reply as [e|e| |root]; cbn [iteration is_sentinel];
    try discriminate.
  destruct (status_is _ _).
  - intros H. inversion H. split; reflexivity.
  - destruct (capture st root) as [err|total]; [discriminate|].
    intros H. unfold turn_page in H.
    repeat match type of H with
           | context [match ?x with _ => _ end] => destruct x
           end; discriminate.
Qed.

(** What an iteration that went through [turn_page] knows of its reply. *)
Lemma iteration_turns a st reply :
  (forall r, iteration a st reply <> Return r) ->
  (forall e, iteration a st reply <> Raise e) ->
  is_sentinel reply = false
  /\ iteration a st reply = turn_page a st (settled st reply) (entries_of reply).
Proof.
  destruct reply as [e|e| |root]; cbn [iteration is_sentinel entries_of];
    intros Hret Hraise.
  - now contradiction (Hraise _ eq_refl).
  - now contradiction (Hraise _ eq_refl).
  - now contradiction (Hraise _ eq_refl).
  - destruct (status_is _ _); [now contradiction (Hret _ eq_refl)|].
    split; [reflexivity|].
    unfold capture, settled, reported_total in *.
    destruct (captured st) as [c|]; [reflexivity|].
    destruct (_get_total_results_first root) as [err|[t|]];
      [now contradiction (Hraise _ eq_refl) | reflexivity | reflexivity].
Qed.

Lemma iteration_continue a st reply st' :
  iteration a st reply = Continue st' ->
  is_sentinel reply = false
  /\ entries_of reply <> []
  /\ all_data st'
     = append_entries (max_records a) (all_data st) (entries_of reply)
  /\ Z.of_nat (length (all_data st')) < max_records a
  /\ start_idx st' = start_idx st + step a
  /\ captured st' = settled st reply
  /\ (forall t, settled st reply = Some t -> start_idx st' <= t).
Proof.
  intros H.
  destruct (iteration_turns a st reply) as [Hs Ht];
    try (intros ? Hc; rewrite H in Hc; discriminate).
  rewrite Ht in H. apply turn_page_continue in H.
  split; [exact Hs | exact H].
Qed.

Lemma iteration_break a st reply at_ st' :
  iteration a st reply = Break at_ st' ->
  is_sentinel reply = false
  /\ turn_page a st (settled st reply) (entries_of reply) = Break at_ st'.
Proof.
  intros H.
  destruct (iteration_turns a st reply) as [Hs Ht];
    try (intros ? Hc; rewrite H in Hc; discriminate).
  rewrite Ht in H. split; assumption.
Qed.

(** Where the exception of an iteration comes from. *)
Lemma iteration_raise a st reply e :
  iteration a st reply = Raise e ->
  (exists msg, e = JStageAPIError msg)
  \/ (exists why, e = IntValueError why)
  \/ reply = OtherException e
  \/ sleep a = Refused e.
Proof.
  destruct reply as [m|e'| |root]; cbn [iteration].
  - intros H; inversion H; left; eauto.
  - intros H; inversion H; auto.
  - intros H; inversion H; left; eauto.
  - destruct (status_is _ _); [discriminate|].
    destruct (capture st root) as [err|total].
    + intros H; inversion H; right; left; eauto.
    + intros H. unfold turn_page in H.
      destruct (descendant_elems _ root).
      * destruct (start_idx st =? 1); discriminate.
      * destruct (Nat.eqb _ _); [discriminate|].
        destruct (_ >=? _); [discriminate|].
        destruct (match total with Some _ => _ | None => _ end);
          [discriminate|].
        destruct (sleep a) as [|e'] eqn:Es; [discriminate|].
        inversion H; subst. auto.
Qed.

(** ** The loop *)

Lemma ended_running r : ended r = StillRunning -> exists st, r = Continue st.
Proof. destruct r; try discriminate. eauto. Qed.

(** A loop that did not run out of fuel is a run. *)
Lemma loop_runs fuel a transport n st :
  snd (loop fuel a transport n st) <> StillRunning ->
  runs a transport n st (fst (loop fuel a transport n st))
       (snd (loop fuel a transport n st)).
Proof.
  revert n st. induction fuel as [|fuel IH]; intros n st; cbn [loop].
  - intros H. now contradiction H.
  - destruct (iteration a st (reply_at a transport n st)) as [st'| | |] eqn:E;
      cbn [fst snd]; intros H.
    + eapply runs_next; [exact E | now apply IH].
    + rewrite <- E. apply runs_last. intros st' Hc. rewrite E in Hc. discriminate.
    + rewrite <- E. apply runs_last. intros st' Hc. rewrite E in Hc. discriminate.
    + rewrite <- E. apply runs_last. intros st' Hc. rewrite E in Hc. discriminate.
Qed.

(** Every iteration that continues adds a record and stays under the limit:
    fuel for the records still missing is enough. *)
Lemma loop_enough fuel a transport n st :
  max_records a <= Z.of_nat fuel + Z.of_nat (length (all_data st)) ->
  Z.of_nat (length (all_data st)) < max_records a ->
  snd (loop fuel a transport n st) <> StillRunning.
Proof.
  revert n st. induction fuel as [|fuel IH]; intros n st Hfuel Hlt; cbn [loop].
  - lia.
  - destruct (iteration a st (reply_at a transport n st)) as [st'| | |] eqn:E;
      cbn [snd ended]; try discriminate.
    apply iteration_continue in E.
    destruct E as (_ & Hne & Hdata & Hlt' & _).
    pose proof (append_entries_grows (max_records a) (all_data st) _ Hne) as Hg.
    rewrite <- Hdata in Hg.
    apply IH; lia.
Qed.

Lemma runs_not_running a transport n st log res :
  runs a transport n st log res -> res <> StillRunning.
Proof.
  induction 1 as [n st Hstop|]; [|assumption].
  intros Hc. apply ended_running in Hc. destruct Hc as [st' Hc].
  exact (Hstop _ Hc).
Qed.

(** A property the first state has and continuing iterations keep holds at
    the head of every iteration. *)
Lemma runs_invariant a transport (P : nat -> State -> Prop) :
  (forall n st st',
      P n st -> iteration a st (reply_at a transport n st) = Continue st' ->
      P (S n) st') ->
  forall n st log res,
    runs a transport n st log res -> P n st ->
    forall k st_k, nth_error log k = Some st_k -> P (n + k)%nat st_k.
Proof.
  intros Hstep n st log res Hrun.
  induction Hrun as [n st Hstop|n st st' log res Hc Hrun IH]; intros HP k st_k Hk.
  - destruct k as [|k]; [|destruct k; discriminate].
    inversion Hk; subst. now rewrite Nat.add_0_r.
  - destruct k as [|k].
    + inversion Hk; subst. now rewrite Nat.add_0_r.
    + cbn [nth_error] in Hk. rewrite Nat.add_succ_r.
      apply (IH (Hstep _ _ _ HP Hc) k st_k Hk).
Qed.

(** Between two consecutive heads lies an iteration that continued. *)
Lemma runs_consecutive a transport n st log res :
  runs a transport n st log res ->
  forall k st_k st',
    nth_error log k = Some st_k -> nth_error log (S k) = Some st' ->
    iteration a st_k (reply_at a transport (n + k) st_k) = Continue st'.
Proof.
  induction 1 as [n st Hstop|n st st1 log res Hc Hrun IH]; intros k st_k st' Hk Hk'.
  - destruct k; discriminate.
  - destruct k as [|k].
    + inversion Hk; subst. rewrite Nat.add_0_r.
      destruct Hrun; inversion Hk'; subst; exact Hc.
    + cbn [nth_error] in Hk, Hk'. rewrite Nat.add_succ_r.
      exact (IH k st_k st' Hk Hk').
Qed.

(** A run ends at its last head, with an iteration that does not continue. *)
Lemma runs_end a transport n st log res :
  runs a transport n st log res ->
  exists l st_last,
    log = (l ++ [st_last])%list
    /\ res = ended (iteration a st_last
                      (reply_at a transport (n + length l) st_last))
    /\ forall st', iteration a st_last
                     (reply_at a transport (n + length l) st_last)
                   <> Continue st'.
Proof.
  induction 1 as [n st Hstop|n st st1 log res Hc Hrun IH].
  - exists [], st. cbn [length app]. rewrite Nat.add_0_r. auto.
  - destruct IH as (l & st_last & -> & Hres & Hstop).
    exists (st :: l), st_last. cbn [length app].
    rewrite Nat.add_succ_r. auto.
Qed.

(** An iteration that does not continue is the last of its run. *)
Lemma runs_stop_at a transport n st log res :
  runs a transport n st log res ->
  forall k st_k,
    nth_error log k = Some st_k ->
    (forall st', iteration a st_k (reply_at a transport (n + k) st_k)
                 <> Continue st') ->
    length log = S k
    /\ res = ended (iteration a st_k (reply_at a transport (n + k) st_k)).
Proof.
  induction 1 as [n st Hstop|n st st1 log res Hc Hrun IH]; intros k st_k Hk Hno.
  - destruct k as [|k]; [|destruct k; discriminate].
    inversion Hk; subst. rewrite Nat.add_0_r. auto.
  - destruct k as [|k].
    + inversion Hk; subst. rewrite Nat.add_0_r in Hno.
      now contradiction (Hno _ Hc).
    + cbn [nth_error] in Hk. rewrite Nat.add_succ_r in *.
      destruct (IH k st_k Hk Hno) as [Hlen Hres].
      cbn [length]. now rewrite Hlen.
Qed.

(** ** What holds at the head of every iteration *)

Lemma head_inv_initial a : 0 < max_records a -> head_inv a 0 initial.
Proof.
  intros Hpos. unfold head_inv, initial; cbn [all_data start_idx length].
  split; [lia|]. split; [now exists []|]. lia.
Qed.

Lemma head_inv_step a transport n st st' :
  head_inv a n st ->
  iteration a st (reply_at a transport n st) = Continue st' ->
  head_inv a (S n) st'.
Proof.
  intros (Hlt & Hrec & Hidx) Hc.
  apply iteration_continue in Hc.
  destruct Hc as (_ & _ & Hdata & Hlt' & Hidx' & _).
  repeat split.
  - exact Hlt'.
  - rewrite Hdata. now apply append_entries_records.
  - rewrite Hidx', Hidx. lia.
Qed.

Lemma runs_heads a transport log res :
  0 < max_records a ->
  runs a transport 0 initial log res ->
  forall k st, nth_error log k = Some st -> head_inv a k st.
Proof.
  intros Hpos Hrun k st Hk.
  apply (runs_invariant a transport (head_inv a) (head_inv_step a transport)
           0%nat initial log res Hrun (head_inv_initial a Hpos) k st Hk).
Qed.

(** The state a [break] leaves behind. *)
Lemma break_state a n st reply at_ st' :
  head_inv a n st ->
  iteration a st reply = Break at_ st' ->
  records (all_data st')
  /\ Z.of_nat (length (all_data st')) <= max_records a
  /\ captured st' = settled st reply
  /\ at_ <> NoProgress
  /\ (at_ = FirstPageEmpty \/ at_ = NoEntries ->
      entries_of reply = [] /\ all_data st' = all_data st).
Proof.
  intros (Hlt & Hrec & _) Hb.
  apply iteration_break in Hb. destruct Hb as [_ Hb].
  apply turn_page_break in Hb.
  destruct Hb as (Hcap & Hnp & Hdata & _).
  assert (Hcases :
            (entries_of reply = [] /\ all_data st' = all_data st)
            \/ ((at_ <> FirstPageEmpty /\ at_ <> NoEntries)
                /\ all_data st'
                   = append_entries (max_records a) (all_data st)
                       (entries_of reply))).
  { destruct at_; destruct Hdata as [H1 H2]; auto; right;
      (split; [split; discriminate | exact H2]). }
  destruct Hcases as [[Hno Heq]|[[Hn1 Hn2] Heq]]; rewrite Heq;
    (split; [|split; [|split; [exact Hcap|split; [exact Hnp|]]]]).
  - exact Hrec.
  - lia.
  - intros _. split; [exact Hno | reflexivity].
  - now apply append_entries_records.
  - now apply append_entries_bound.
  - intros [Hc|Hc]; contradiction.
Qed.

(** ** The captured total and the sentinel along a run *)

Lemma first_some_cons {A} (x : option A) l :
  first_some (x :: l) = match x with Some v => Some v | None => first_some l end.
Proof. destruct x; reflexivity. Qed.

Lemma runs_captured a transport n st log res :
  runs a transport n st log res ->
  forall at_ st', res = Broke at_ st' ->
    captured st'
    = match captured st with
      | Some c => Some c
      | None => first_some (map reported_total (replies_from a transport n log))
      end.
Proof.
  induction 1 as [n st Hstop|n st st1 log res Hc Hrun IH]; intros at_ st' Hres.
  - destruct (iteration a st (reply_at a transport n st)) eqn:E;
      cbn [ended] in Hres; try discriminate.
    inversion Hres; subst.
    apply iteration_break in E. destruct E as [_ E].
    apply turn_page_break in E. destruct E as (Hcap & _).
    rewrite Hcap. unfold settled. cbn [replies_from map].
    rewrite first_some_cons. cbn [first_some].
    destruct (captured st); [reflexivity|].
    now destruct (reported_total _).
  - rewrite (IH at_ st' Hres).
    apply iteration_continue in Hc.
    destruct Hc as (_ & _ & _ & _ & _ & Hcap & _).
    rewrite Hcap. unfold settled. cbn [replies_from map].
    rewrite first_some_cons.
    destruct (captured st); [reflexivity|].
    now destruct (reported_total _).
Qed.

Lemma runs_broke_no_sentinel a transport n st log res :
  runs a transport n st log res ->
  forall at_ st', res = Broke at_ st' ->
    existsb is_sentinel (replies_from a transport n log) = false.
Proof.
  induction 1 as [n st Hstop|n st st1 log res Hc Hrun IH]; intros at_ st' Hres;
    cbn [replies_from existsb].
  - destruct (iteration a st (reply_at a transport n st)) eqn:E;
      cbn [ended] in Hres; try discriminate.
    apply iteration_break in E. destruct E as [-> _]. reflexivity.
  - apply iteration_continue in Hc. destruct Hc as [-> _].
    exact (IH at_ st' Hres).
Qed.

Lemma runs_returned a transport n st log res :
  runs a transport n st log res ->
  forall r, res = Returned r ->
    r = mkFetchResult [] (Some 0)
    /\ existsb is_sentinel (replies_from a transport n log) = true.
Proof.
  induction 1 as [n st Hstop|n st st1 log res Hc Hrun IH]; intros r Hres;
    cbn [replies_from existsb].
  - destruct (iteration a st (reply_at a transport n st)) eqn:E;
      cbn [ended] in Hres; try discriminate.
    inversion Hres; subst.
    apply iteration_return in E. destruct E as [-> ->]. auto.
  - destruct (IH r Hres) as [-> ->]. split; [reflexivity | apply orb_true_r].
Qed.

Lemma runs_raised a transport n st log res :
  runs a transport n st log res ->
  forall e, res = Raised e ->
    (exists msg, e = JStageAPIError msg)
    \/ (exists why, e = IntValueError why)
    \/ (exists k url, transport k url = OtherException e)
    \/ sleep a = Refused e.
Proof.
  intros Hrun e Hres.
  destruct (runs_end _ _ _ _ _ _ Hrun) as (l & st_last & _ & Hres' & _).
  rewrite Hres in Hres'.
  destruct (iteration a st_last _) eqn:E; cbn [ended] in Hres'; try discriminate.
  inversion Hres'; subst.
  destruct (iteration_raise _ _ _ _ E) as [H|[H|[H|H]]]; auto.
  right. right. left. unfold reply_at in H. eauto.
Qed.

(** ** Validation *)

Lemma validate_passed a :
  validate a = None ->
  in_set (field a) ALLOWED_FIELDS = true
  /\ 0 < max_records a /\ 0 < step a
  /\ existsb (Py.contains (base_params a)) SEARCH_PARAM_KEYS = true.
Proof.
  unfold validate.
  destruct (in_set (field a) ALLOWED_FIELDS); cbn [negb]; [|discriminate].
  destruct (Z.leb_spec (max_records a) 0); [discriminate|].
  destruct (Z.leb_spec (step a) 0); [discriminate|].
  destruct (existsb _ SEARCH_PARAM_KEYS); cbn [negb]; [|discriminate].
  auto.
Qed.

(** The loop of a validated call ends within its fuel. *)
Lemma run_runs a transport :
  validate a = None ->
  runs a transport 0 initial (fst (run a transport)) (snd (run a transport)).
Proof.
  intros Hv. apply validate_passed in Hv. destruct Hv as (_ & Hpos & _).
  unfold run. apply loop_runs. apply loop_enough;
    unfold initial; cbn [all_data length]; lia.
Qed.

(** ** The table *)

Arguments key_column : simpl never.
Arguments cast_cell : simpl never.

Lemma frame_of_records es :
  es <> [] ->
  frame_of_dicts (map record_of es)
  = map (fun k => (k, key_column k es)) record_keys.
Proof.
  destruct es as [|e es]; [contradiction|]. intros _.
  unfold frame_of_dicts. cbn [map]. fold (map record_of es).
  change (map fst (record_of e)) with record_keys.
  apply map_ext. intros k. f_equal.
  unfold key_column. cbn [map]. f_equal. now rewrite map_map.
Qed.

(** polars builds the frame of the records when it can build each of their
    columns. *)
Lemma DataFrame_of_records es :
  es <> [] ->
  DataFrame_of_dicts (map record_of es)
  = if records_build es
    then Some (map (fun k => (k, key_column k es)) record_keys)
    else None.
Proof.
  intros Hne. unfold DataFrame_of_dicts. rewrite (frame_of_records es Hne).
  unfold records_build. reflexivity.
Qed.

(** A column of at most [INFER_SCHEMA_LENGTH] values is read whole before
    its type is chosen. *)
Lemma column_builds_short cells :
  (length cells <= INFER_SCHEMA_LENGTH)%nat -> column_builds cells = true.
Proof.
  intros H. unfold column_builds. rewrite (skipn_all2 cells H).
  apply orb_true_r.
Qed.

Lemma records_build_short es :
  (length es <= INFER_SCHEMA_LENGTH)%nat -> records_build es = true.
Proof.
  intros H. unfold records_build. apply forallb_forall. intros k _.
  apply column_builds_short. unfold key_column. now rewrite length_map.
Qed.

Lemma zip_with_cons {A B C} (f : A -> B -> C) x l y m :
  zip_with f (x :: l) (y :: m) = f x y :: zip_with f l m.
Proof. reflexivity. Qed.

(** The series the url_doi expression evaluates to. *)
Lemma url_doi_series (cells : Series) :
  (forall d, In d cells -> d = VNone \/ exists s, d = VStr s) ->
  zip_with (fun cv to => when_cell cv (fst to) (snd to))
    (map (fun v => match v with VNone => VBool false | _ => VBool true end) cells)
    (combine
       (zip_with concat_cell
          (zip_with concat_cell (repeat (VStr "") (length cells))
             (repeat (VStr "https://doi.org/") (length cells)))
          cells)
       (repeat VNone (length cells)))
  = map url_of_doi cells.
Proof.
  induction cells as [|d cells IH]; intros Hcells; [reflexivity|].
  cbn [length repeat map combine]. rewrite !zip_with_cons. cbn [combine].
  rewrite zip_with_cons, IH by (intros d' Hd'; apply Hcells; now right).
  f_equal.
  destruct (Hcells d (or_introl eq_refl)) as [->|[s ->]]; reflexivity.
Qed.

Lemma key_column_doi es d :
  In d (key_column "doi" es) -> d = VNone \/ exists s, d = VStr s.
Proof.
  unfold key_column. rewrite in_map_iff. intros (e & <- & _).
  change (Py.get (record_of e) "doi")
    with (Some (of_option (get_first e "prism" "doi"))).
  destruct (get_first e "prism" "doi"); cbn [of_option]; eauto.
Qed.

Lemma length_key_column k es : length (key_column k es) = length es.
Proof. unfold key_column. apply length_map. Qed.

(** With at least one record, [fetch] types the frame: the casts replace
    their columns in place and url_doi comes last. *)
Lemma typed_of_records p es :
  es <> [] ->
  typed p (map (fun k => (k, key_column k es)) record_keys)
  = Some (typed_table p es).
Proof.
  intros Hne. unfold typed.
  assert (Hh : height (map (fun k => (k, key_column k es)) record_keys)
               = length es).
  { cbn [record_keys map height]. apply length_key_column. }
  unfold is_empty. rewrite Hh.
  destruct es as [|e es']; [contradiction|].
  cbn [length Nat.eqb negb].
  unfold with_columns, typed_columns, url_doi_expr.
  cbn [fold_left eval output_name record_keys map column Py.get Py.set
       option_map String.eqb Ascii.eqb Bool.eqb height].
  rewrite length_key_column, <- (length_key_column "doi").
  rewrite url_doi_series by apply key_column_doi.
  reflexivity.
Qed.

(** The table of at least one record: the typed table, when polars can
    build the frame. *)
Lemma table_of_records p es :
  es <> [] ->
  table p (map record_of es)
  = if records_build es then Some (typed_table p es) else None.
Proof.
  intros Hne. unfold table. rewrite (DataFrame_of_records es Hne).
  destruct (records_build es); [now apply typed_of_records | reflexivity].
Qed.

Lemma height_typed_table p es : height (typed_table p es) = length es.
Proof.
  unfold typed_table. cbn [height]. now rewrite length_map, length_key_column.
Qed.

(** The table of the accumulated records has one row per record. *)
Lemma table_of_data p data t :
  records data ->
  table p data = Some t ->
  height t = length data
  /\ (data = [] -> t = [])
  /\ (data <> [] -> exists es, data = map record_of es
                               /\ t = typed_table p es).
Proof.
  intros [es ->] Ht. destruct es as [|e es].
  - cbn in Ht. injection Ht as <-. repeat split; auto.
    intros H. now contradiction H.
  - rewrite table_of_records in Ht by discriminate.
    destruct (records_build (e :: es)); [|discriminate].
    injection Ht as <-.
    split; [now rewrite height_typed_table, length_map|].
    split; [discriminate|]. intros _. now exists (e :: es).
Qed.

(** From records, the table is built whenever polars builds the frame:
    [with_columns] finds its columns. *)
Lemma table_builds p data :
  records data ->
  (DataFrame_of_dicts data = None /\ table p data = None)
  \/ (DataFrame_of_dicts data <> None /\ exists t, table p data = Some t).
Proof.
  intros [es ->]. destruct es as [|e es].
  - right. split; [discriminate|]. now exists [].
  - rewrite table_of_records, DataFrame_of_records by discriminate.
    destruct (records_build (e :: es)).
    + right. split; [discriminate|]. eauto.
    + left. split; reflexivity.
Qed.

(** polars builds the frame of at most [INFER_SCHEMA_LENGTH] records. *)
Lemma frame_of_few data :
  records data ->
  (length data <= INFER_SCHEMA_LENGTH)%nat ->
  DataFrame_of_dicts data <> None.
Proof.
  intros [es ->] Hlen. destruct es as [|e es]; [discriminate|].
  rewrite DataFrame_of_records by discriminate.
  rewrite records_build_short by now rewrite length_map in Hlen.
  discriminate.
Qed.

(** The code after the loop, on records. *)
Lemma assemble_of_data p data total :
  records data ->
  assemble p data total
  = match table p data with
    | Some t =>
        Ok (mkFetchResult t
              (match total with
               | None => Some (Z.of_nat (length data))
               | Some n => Some n
               end))
    | None => Error ComputeError
    end.
Proof.
  intros [es ->]. destruct es as [|e es]; [reflexivity|].
  unfold assemble, table. rewrite DataFrame_of_records by discriminate.
  destruct (records_build (e :: es)); [|reflexivity].
  now rewrite typed_of_records by discriminate.
Qed.

(** ** The outcome of a call *)

(** Every way a validated call can end, with what the loop left behind. *)
Lemma fetch_outcome p a transport :
  validate a = None ->
  let log := fst (run a transport) in
  fst (fetch p a transport) = log
  /\ runs a transport 0 initial log (snd (run a transport))
  /\ match snd (run a transport) with
     | Broke at_ st =>
         records (all_data st)
         /\ match table p (all_data st) with
            | Some t =>
                height t = length (all_data st)
                /\ snd (fetch p a transport)
                   = Ok (mkFetchResult t
                           (Some (match captured st with
                                  | Some c => c
                                  | None => Z.of_nat (length (all_data st))
                                  end)))
            | None =>
                DataFrame_of_dicts (all_data st) = None
                /\ snd (fetch p a transport) = Error ComputeError
            end
     | Returned r => snd (fetch p a transport) = Ok r
     | Raised e => snd (fetch p a transport) = Error e
     | StillRunning => False
     end.
Proof.
  intros Hv log. pose proof (run_runs a transport Hv) as Hrun.
  unfold fetch. rewrite Hv. cbn [fst snd].
  split; [reflexivity|]. split; [exact Hrun|].
  pose proof (runs_not_running _ _ _ _ _ _ Hrun) as Hnot.
  destruct (snd (run a transport)) as [at_ st|r|e|] eqn:E; cbn [finish]; auto.
  destruct (runs_end _ _ _ _ _ _ Hrun) as (l & st_last & Hlog & Hres & _).
  assert (Hhead : head_inv a (length l) st_last).
  { apply (runs_heads a transport _ _ (proj1 (proj2 (validate_passed a Hv))) Hrun).
    rewrite Hlog, nth_error_app2, Nat.sub_diag by lia. reflexivity. }
  destruct (iteration a st_last _) eqn:Hi; cbn [ended] in Hres; try discriminate.
  inversion Hres; subst.
  destruct (break_state _ _ _ _ _ _ Hhead Hi) as (Hrec & _).
  split; [exact Hrec|]. rewrite (assemble_of_data p _ _ Hrec).
  destruct (table p (all_data _)) as [t|] eqn:Ht.
  - split; [apply (table_of_data p _ t Hrec Ht)|]. now destruct (captured _).
  - split; [|reflexivity].
    now destruct (table_builds p _ Hrec) as [[H _]|[_ [t H]]];
      [|rewrite Ht in H].
Qed.

Lemma fetch_invalid p a transport e :
  validate a = Some e -> fetch p a transport = ([], Error e).
Proof. intros H. unfold fetch. now rewrite H. Qed.

(** A call never runs out of fuel. *)
Lemma fetch_total p a transport : snd (fetch p a transport) <> Diverges.
Proof.
  destruct (validate a) as [e|] eqn:Hv.
  - rewrite (fetch_invalid p a transport e Hv). discriminate.
  - destruct (fetch_outcome p a transport Hv) as (_ & _ & H).
    destruct (snd (run a transport)) as [at_ st|r|e|].
    + destruct H as (_ & H). destruct (table p (all_data st)).
      * destruct H as (_ & ->). discriminate.
      * destruct H as (_ & ->). discriminate.
    + rewrite H. discriminate.
    + rewrite H. discriminate.
    + contradiction.
Qed.

(** What a successful call returns: the sentinel result, or the table of
    the records the loop left at a [break]. *)
Lemma fetch_ok p a transport r :
  snd (fetch p a transport) = Ok r ->
  let received := replies a transport (fst (fetch p a transport)) in
  validate a = None
  /\ ((r = mkFetchResult [] (Some 0) /\ existsb is_sentinel received = true)
      \/ (existsb is_sentinel received = false
          /\ exists at_ st,
               snd (run a transport) = Broke at_ st
               /\ records (all_data st)
               /\ Z.of_nat (length (all_data st)) <= max_records a
               /\ table p (all_data st) = Some (df r)
               /\ height (df r) = length (all_data st)
               /\ total_results r
                  = Some (match first_some (map reported_total received) with
                          | Some c => c
                          | None => Z.of_nat (length (all_data st))
                          end))).
Proof.
  intros Hok received.
  destruct (validate a) as [e|] eqn:Hv.
  { rewrite (fetch_invalid p a transport e Hv) in Hok. discriminate. }
  split; [reflexivity|].
  destruct (fetch_outcome p a transport Hv) as (Hlog & Hrun & H).
  subst received. rewrite Hlog. unfold replies.
  destruct (snd (run a transport)) as [at_ st|r'|e|] eqn:E.
  - right. split; [exact (runs_broke_no_sentinel _ _ _ _ _ _ Hrun _ _ eq_refl)|].
    destruct H as (_ & H).
    destruct (table p (all_data st)) as [t|] eqn:Ht;
      [|destruct H as (_ & Hout); rewrite Hout in Hok; discriminate].
    destruct H as (Hh & Hout).
    rewrite Hout in Hok. inversion Hok; subst r. cbn [df total_results].
    exists at_, st. split; [reflexivity|].
    destruct (runs_end _ _ _ _ _ _ Hrun) as (l & st_last & Hl & Hres & _).
    assert (Hhead : head_inv a (length l) st_last).
    { apply (runs_heads a transport _ _
               (proj1 (proj2 (validate_passed a Hv))) Hrun).
      rewrite Hl, nth_error_app2, Nat.sub_diag by lia. reflexivity. }
    destruct (iteration a st_last _) eqn:Hi; cbn [ended] in Hres;
      try discriminate.
    inversion Hres; subst.
    destruct (break_state _ _ _ _ _ _ Hhead Hi) as (Hrec & Hle & _).
    repeat split; auto.
    rewrite (runs_captured _ _ _ _ _ _ Hrun _ _ eq_refl).
    cbn [initial captured]. now destruct (first_some _).
  - left. rewrite H in Hok. inversion Hok; subst r'.
    exact (runs_returned _ _ _ _ _ _ Hrun _ eq_refl).
  - rewrite H in Hok. discriminate.
  - contradiction.
Qed.

(** ** The loop, one iteration at a time *)

Lemma loop_continue fuel a transport n st st' :
  iteration a st (reply_at a transport n st) = Continue st' ->
  loop (S fuel) a transport n st
  = (st :: fst (loop fuel a transport (S n) st'),
     snd (loop fuel a transport (S n) st')).
Proof. intros H. cbn [loop]. now rewrite H. Qed.

Lemma loop_stop fuel a transport n st at_ st' :
  iteration a st (reply_at a transport n st) = Break at_ st' ->
  loop (S fuel) a transport n st = ([st], Broke at_ st').
Proof. intros H. cbn [loop]. now rewrite H. Qed.

Lemma length_3 {A} (l : list A) :
  length l = 3%nat -> exists x y z, l = [x; y; z].
Proof. destruct l as [|x [|y [|z [|w l]]]]; try discriminate. eauto. Qed.

(** An iteration on a page of three entries. *)
Lemma page_of_iteration a st reply :
  page_of 3 a reply ->
  exists total e1 e2 e3,
    (captured st = None ->
     total = None \/ exists t, total = Some t /\ 1 + step a <= t)
    /\ iteration a st reply = turn_page a st total [e1; e2; e3].
Proof.
  intros (Hs & Hlen & Htot).
  destruct (length_3 _ Hlen) as (e1 & e2 & e3 & He).
  destruct reply as [m|m| |root]; try contradiction.
  cbn [is_sentinel] in Hs. cbn [entries_of] in He. cbn [iteration].
  rewrite Hs, He. unfold capture.
  destruct (captured st) as [c|].
  - exists (Some c), e1, e2, e3. split; [discriminate | reflexivity].
  - destruct (_get_total_results_first root) as [err|[t|]]; try contradiction.
    + exists (Some t), e1, e2, e3. split; eauto.
    + exists None, e1, e2, e3. split; eauto.
Qed.

(** Limit five, pages of three: the second page ends the loop with five
    records. *)
Lemma five_of_threes a transport :
  max_records a = 5 -> sleep a = Seconds ->
  (forall n url, page_of 3 a (transport n url)) ->
  exists st1 st2,
    run a transport = ([initial; st1], Broke LimitReached st2)
    /\ length (all_data st2) = 5%nat.
Proof.
  intros Hmax Hsleep Hpages. unfold run. rewrite Hmax.
  change (Z.to_nat 5) with 5%nat.
  destruct (page_of_iteration a initial _
              (Hpages 0%nat (page_url (page_params a initial))))
    as (tot & e1 & e2 & e3 & Htot & Hfirst).
  specialize (Htot eq_refl).
  set (st1 := mkState [record_of e1; record_of e2; record_of e3]
                      (1 + step a) tot).
  assert (H1 : iteration a initial (reply_at a transport 0 initial)
               = Continue st1).
  { unfold reply_at. rewrite Hfirst. unfold turn_page. rewrite Hmax.
    cbn [initial all_data start_idx append_entries app length Nat.eqb].
    change (Z.of_nat 1 >=? 5) with false.
    change (Z.of_nat 2 >=? 5) with false.
    change (Z.of_nat 3 >=? 5) with false. cbv iota. rewrite Hsleep.
    destruct Htot as [->|(t & -> & Hle)]; [reflexivity|].
    destruct (Z.gtb_spec (1 + step a) t); [lia | reflexivity]. }
  destruct (page_of_iteration a st1 _
              (Hpages 1%nat (page_url (page_params a st1))))
    as (tot2 & e4 & e5 & e6 & _ & Hsecond).
  set (st2 := mkState [record_of e1; record_of e2; record_of e3;
                       record_of e4; record_of e5]
                      (1 + step a) tot2).
  assert (H2 : iteration a st1 (reply_at a transport 1 st1)
               = Break LimitReached st2).
  { unfold reply_at. rewrite Hsecond. unfold turn_page. rewrite Hmax.
    reflexivity. }
  exists st1, st2.
  rewrite (loop_continue _ _ _ _ _ _ H1), (loop_stop _ _ _ _ _ _ _ H2).
  split; reflexivity.
Qed.

(** * The claims *)

(** C1.  The accumulator never holds more than [max_records] records: every
    request is sent while it is strictly under the limit (so none is sent
    once the limit is reached), the [for] loop of a page takes just the
    entries that fit under the limit and stops there, and the table returned
    has at most [max_records] rows.  In particular, with [max_records = 5],
    a pause [time.sleep] accepts and pages of three entries from a result
    set that goes on, two requests are sent and five rows returned. *)
Theorem accumulator_within_max_records p a transport :
  let log := fst (fetch p a transport) in
  (forall st, In st log ->
     Z.of_nat (length (all_data st)) < max_records a
     /\ forall entries,
          append_entries (max_records a) (all_data st) entries
          = (all_data st
             ++ map record_of
                  (firstn (Z.to_nat (max_records a
                                     - Z.of_nat (length (all_data st))))
                          entries))%list
          /\ Z.of_nat (length (append_entries (max_records a) (all_data st)
                                 entries))
             <= max_records a)
  /\ (forall r, snd (fetch p a transport) = Ok r ->
        Z.of_nat (height (df r)) <= max_records a)
  /\ (validate a = None -> max_records a = 5 -> sleep a = Seconds ->
      (forall n url, page_of 3 a (transport n url)) ->
      length log = 2%nat
      /\ exists r, snd (fetch p a transport) = Ok r /\ height (df r) = 5%nat).
Proof.
  intros log. split; [|split].
  - intros st Hin.
    destruct (validate a) as [e|] eqn:Hv.
    { subst log. rewrite (fetch_invalid p a transport e Hv) in Hin.
      contradiction. }
    destruct (fetch_outcome p a transport Hv) as (Hlog & Hrun & _).
    subst log. rewrite Hlog in Hin.
    apply In_nth_error in Hin. destruct Hin as [k Hk].
    destruct (runs_heads a transport _ _
                (proj1 (proj2 (validate_passed a Hv))) Hrun k st Hk)
      as (Hlt & _).
    split; [exact Hlt|]. intros entries.
    split; [now apply append_entries_take | now apply append_entries_bound].
  - intros r Hok.
    destruct (fetch_ok p a transport r Hok) as (Hv & [[-> _]|(_ & H)]).
    + apply validate_passed in Hv. cbn [df height]. lia.
    + destruct H as (at_ & st & _ & _ & Hle & _ & Hh & _). now rewrite Hh.
  - intros Hv Hmax Hsleep Hpages.
    destruct (five_of_threes a transport Hmax Hsleep Hpages)
      as (st1 & st2 & Hrun & Hlen).
    destruct (fetch_outcome p a transport Hv) as (Hlog & _ & H).
    subst log. rewrite Hlog, Hrun. cbn [fst length]. split; [reflexivity|].
    rewrite Hrun in H. cbn [snd] in H. destruct H as (Hrec & H).
    destruct (table_builds p _ Hrec) as [[Hnone _]|[_ [t Ht]]].
    { apply frame_of_few in Hnone; [contradiction | exact Hrec|].
      rewrite Hlen. unfold INFER_SCHEMA_LENGTH. lia. }
    rewrite Ht in H. destruct H as (Hh & Hout).
    eexists. split; [exact Hout|]. cbn [df]. now rewrite Hh.
Qed.

Lemma accumulator_within_max_records_witness :
  length (fst (fetch decimal_int32 (sample_args 5 3) endless_threes)) = 2%nat
  /\ exists r, snd (fetch decimal_int32 (sample_args 5 3) endless_threes) = Ok r
               /\ height (df r) = 5%nat.
Proof.
  destruct (accumulator_within_max_records decimal_int32 (sample_args 5 3)
              endless_threes) as (_ & _ & H).
  apply H.
  - reflexivity.
  - reflexivity.
  - reflexivity.
  - intros n url. unfold page_of, endless_threes.
    split; [reflexivity|]. split; [reflexivity|]. exact I.
Defined.

(** C2, as the code has it.  [total_results] is never left unset.  When no
    reply received carried the sentinel status, it is the total of the first
    reply that reports one (later replies do not change it), and the number
    of rows returned if no reply reports one.  When a reply received carried
    the sentinel status, it is 0, whatever was captured before. *)
Theorem total_results_first_reported p a transport r :
  snd (fetch p a transport) = Ok r ->
  let received := replies a transport (fst (fetch p a transport)) in
  total_results r <> None
  /\ (existsb is_sentinel received = false ->
      total_results r
      = Some (match first_some (map reported_total received) with
              | Some t => t
              | None => Z.of_nat (height (df r))
              end))
  /\ (existsb is_sentinel received = true -> total_results r = Some 0).
Proof.
  intros Hok received.
  destruct (fetch_ok p a transport r Hok) as (_ & [[-> Hs]|(Hs & H)]).
  - fold received in Hs. split; [discriminate|]. split; [|reflexivity].
    intros Hn. rewrite Hs in Hn. discriminate.
  - destruct H as (at_ & st & _ & _ & _ & _ & Hh & Htot).
    fold received in Htot, Hs. rewrite Htot, Hh.
    split; [discriminate|]. split; [reflexivity|].
    intros Hn. rewrite Hs in Hn. discriminate.
Qed.

Lemma total_results_first_reported_witness :
  exists r,
    snd (fetch decimal_int32 (sample_args 5 3) total_then_none) = Ok r
    /\ height (df r) = 5%nat
    /\ total_results r = Some 100.
Proof.
  eexists. split; [reflexivity|]. split; [reflexivity|].
  destruct (total_results_first_reported decimal_int32 (sample_args 5 3)
              total_then_none _ eq_refl) as (_ & H & _).
  rewrite H by reflexivity. reflexivity.
Defined.

(** C2 as stated fails: the first reply reports a total of 100, the second
    carries the sentinel, and [total_results] is 0. *)
Lemma sentinel_resets_captured_total :
  snd (fetch decimal_int32 (sample_args 5 3) total_then_sentinel)
  = Ok (mkFetchResult [] (Some 0))
  /\ map reported_total
       (replies (sample_args 5 3) total_then_sentinel
          (fst (fetch decimal_int32 (sample_args 5 3) total_then_sentinel)))
     = [Some 100; None]
  /\ ~ (forall r,
          snd (fetch decimal_int32 (sample_args 5 3) total_then_sentinel) = Ok r ->
          total_results r = Some 100).
Proof.
  split; [reflexivity|]. split; [reflexivity|].
  intros H. specialize (H _ eq_refl). discriminate H.
Qed.

(** C3, as the code has it.  When the last iteration of a validated call
    meets the sentinel status, [fetch] returns normally, with no row and a
    total of 0 (the records of earlier pages are dropped).  When it ends at
    the [break] of a page without entries and polars builds the frame of the
    records accumulated so far, as it does of at most 100 records, [fetch]
    returns normally the table of these records, one row per record; the
    [break] of a page that added nothing is covered too, though no run
    takes it. *)
Theorem graceful_stop_returns_normally p a transport l st :
  validate a = None ->
  fst (fetch p a transport) = (l ++ [st])%list ->
  let reply := reply_at a transport (length l) st in
  (is_sentinel reply = true ->
   snd (fetch p a transport) = Ok (mkFetchResult [] (Some 0)))
  /\ (forall at_ st',
        iteration a st reply = Break at_ st' ->
        at_ = FirstPageEmpty \/ at_ = NoEntries \/ at_ = NoProgress ->
        (length (all_data st) <= INFER_SCHEMA_LENGTH)%nat
        \/ DataFrame_of_dicts (all_data st) <> None ->
        exists t total,
          table p (all_data st) = Some t
          /\ height t = length (all_data st)
          /\ snd (fetch p a transport) = Ok (mkFetchResult t (Some total))).
Proof.
  intros Hv Hl reply.
  destruct (fetch_outcome p a transport Hv) as (Hlog & Hrun & Hout).
  cbv zeta in Hlog. rewrite Hlog in Hl.
  assert (Hk : nth_error (fst (run a transport)) (length l) = Some st).
  { rewrite Hl, nth_error_app2, Nat.sub_diag by lia. reflexivity. }
  pose proof (runs_heads a transport _ _
                (proj1 (proj2 (validate_passed a Hv))) Hrun _ _ Hk) as Hhead.
  split.
  - intros Hs.
    pose proof (is_sentinel_iteration a st reply Hs) as Hi.
    destruct (runs_stop_at _ _ _ _ _ _ Hrun _ _ Hk) as [_ Hres].
    { intros st' Hc. cbn [Nat.add] in Hc. fold reply in Hc.
      rewrite Hi in Hc. discriminate. }
    cbn [Nat.add] in Hres. fold reply in Hres. rewrite Hi in Hres.
    cbn [ended] in Hres. rewrite Hres in Hout. exact Hout.
  - intros at_ st' Hi Hat Hbuilds.
    destruct (runs_stop_at _ _ _ _ _ _ Hrun _ _ Hk) as [_ Hres].
    { intros st'' Hc. cbn [Nat.add] in Hc. fold reply in Hc.
      rewrite Hi in Hc. discriminate. }
    cbn [Nat.add] in Hres. fold reply in Hres. rewrite Hi in Hres.
    cbn [ended] in Hres. rewrite Hres in Hout.
    destruct Hout as (Hrec & Hout).
    destruct (break_state _ _ _ _ _ _ Hhead Hi) as (_ & _ & _ & Hnp & Hsame).
    assert (Heq : all_data st' = all_data st).
    { destruct Hat as [Hat|[Hat|Hat]]; [| |contradiction].
      - exact (proj2 (Hsame (or_introl Hat))).
      - exact (proj2 (Hsame (or_intror Hat))). }
    rewrite Heq in Hrec, Hout.
    assert (Hb : DataFrame_of_dicts (all_data st) <> None).
    { destruct Hbuilds as [Hfew|Hb]; [now apply frame_of_few | exact Hb]. }
    destruct (table p (all_data st)) as [t|].
    + destruct Hout as (Hh & Hout). eauto.
    + destruct Hout as (Hnone & _). contradiction.
Qed.

Lemma graceful_stop_returns_normally_witness :
  snd (fetch decimal_int32 (sample_args 5 3) total_then_sentinel)
  = Ok (mkFetchResult [] (Some 0))
  /\ (exists t total,
        table decimal_int32 (all_data initial) = Some t
        /\ height t = length (all_data initial)
        /\ snd (fetch decimal_int32 (sample_args 5 3) empty_with_total)
           = Ok (mkFetchResult t (Some total)))
  /\ (exists t total,
        table decimal_int32 (map record_of three_entries) = Some t
        /\ height t = 3%nat
        /\ snd (fetch decimal_int32 (sample_args 5 3) three_then_none)
           = Ok (mkFetchResult t (Some total))).
Proof.
  split; [|split].
  - eapply (graceful_stop_returns_normally decimal_int32 (sample_args 5 3)
              total_then_sentinel [initial]).
    + reflexivity.
    + reflexivity.
    + reflexivity.
  - destruct (graceful_stop_returns_normally decimal_int32 (sample_args 5 3)
                empty_with_total [] initial eq_refl eq_refl) as [_ H].
    eapply H.
    + reflexivity.
    + left. reflexivity.
    + left. apply Nat.le_0_l.
  - destruct (graceful_stop_returns_normally decimal_int32 (sample_args 5 3)
                three_then_none [initial]
                (mkState (map record_of three_entries) 4 None)
                eq_refl eq_refl) as [_ H].
    eapply H.
    + reflexivity.
    + right. left. reflexivity.
    + left. apply Nat.leb_le. reflexivity.
Defined.

(** C3 as stated fails: the first page adds three records, the second
    carries the sentinel, and the result has no row. *)
Lemma sentinel_drops_accumulated_records :
  exists st,
    nth_error (fst (fetch decimal_int32 (sample_args 5 3) total_then_sentinel)) 1
    = Some st
    /\ is_sentinel (reply_at (sample_args 5 3) total_then_sentinel 1 st) = true
    /\ length (all_data st) = 3%nat
    /\ exists r,
         snd (fetch decimal_int32 (sample_args 5 3) total_then_sentinel) = Ok r
         /\ height (df r) = 0%nat.
Proof.
  eexists. split; [reflexivity|]. split; [reflexivity|]. split; [reflexivity|].
  eexists. split; reflexivity.
Qed.

(** Past 100 records polars may refuse the frame.  A first page of a hundred
    entries without a DOI and one with a DOI, then a page without entries:
    the loop ends at the [break] of that page with 101 records, and
    [pl.DataFrame] raises ComputeError. *)
Lemma late_doi_raises_ComputeError :
  (exists st,
     snd (run (sample_args 200 1000) late_doi_page) = Broke NoEntries st
     /\ length (all_data st) = 101%nat)
  /\ snd (fetch decimal_int32 (sample_args 200 1000) late_doi_page)
     = Error ComputeError.
Proof.
  split.
  - eexists. split; vm_compute; reflexivity.
  - vm_compute. reflexivity.
Qed.

(** C4.  Whenever the reply to a request of [fetch] carries the status
    ["ERR_001"], that request is the last, and [fetch] returns normally a
    table without rows and a total of 0. *)
Theorem sentinel_status_returns_empty p a transport n st :
  nth_error (fst (fetch p a transport)) n = Some st ->
  is_sentinel (reply_at a transport n st) = true ->
  snd (fetch p a transport) = Ok (mkFetchResult [] (Some 0))
  /\ length (fst (fetch p a transport)) = S n.
Proof.
  intros Hk Hs.
  destruct (validate a) as [e|] eqn:Hv.
  { rewrite (fetch_invalid p a transport e Hv) in Hk.
    destruct n; discriminate. }
  destruct (fetch_outcome p a transport Hv) as (Hlog & Hrun & Hout).
  cbv zeta in Hlog. rewrite Hlog in *.
  pose proof (is_sentinel_iteration a st _ Hs) as Hi.
  destruct (runs_stop_at _ _ _ _ _ _ Hrun _ _ Hk) as [Hlen Hres].
  { intros st' Hc. cbn [Nat.add] in Hc. rewrite Hi in Hc. discriminate. }
  cbn [Nat.add] in Hres. rewrite Hi in Hres. cbn [ended] in Hres.
  rewrite Hres in Hout. auto.
Qed.

Lemma sentinel_status_returns_empty_witness :
  snd (fetch decimal_int32 (sample_args 5 3) total_then_sentinel)
  = Ok (mkFetchResult [] (Some 0))
  /\ length (fst (fetch decimal_int32 (sample_args 5 3) total_then_sentinel))
     = 2%nat.
Proof.
  eapply (sentinel_status_returns_empty decimal_int32 (sample_args 5 3)
            total_then_sentinel 1%nat).
  - reflexivity.
  - reflexivity.
Defined.

(** ** Validation of the arguments *)

Lemma no_search_term_base a :
  no_search_term a ->
  base_params a = [("service", "3"); ("pubyearfrom", Py.str (year a))].
Proof.
  unfold no_search_term, base_params, Py.truthy.
  intros (Hw & Hm & Hau & Haf & Hi & Hc).
  destruct (target_word a) as [w|]; [rewrite Hw; cbn [Py.nonempty]|];
    destruct (material a); try rewrite Hm;
    destruct (author a); try rewrite Hau;
    destruct (affil a); try rewrite Haf;
    destruct (issn a); try rewrite Hi;
    destruct (cdjournal a); try rewrite Hc; reflexivity.
Qed.

Lemma no_search_term_rejected a :
  no_search_term a ->
  existsb (Py.contains (base_params a)) SEARCH_PARAM_KEYS = false.
Proof. intros H. rewrite (no_search_term_base a H). reflexivity. Qed.

(** C5.  [fetch] raises [ValueError] without sending a request when the
    field is not an allowed one, when [max_records] or [step] is not
    positive, or when no search term is given (whatever the year); for the
    missing search term the message lists the parameters to give; so every
    request [fetch] sends has one of the search-term keys among its
    parameters. *)
Theorem invalid_arguments_rejected p a transport :
  (in_set (field a) ALLOWED_FIELDS = false \/ max_records a <= 0
   \/ step a <= 0 \/ no_search_term a ->
   exists msg, fetch p a transport = ([], Error (ValueError msg)))
  /\ (in_set (field a) ALLOWED_FIELDS = true -> 0 < max_records a ->
      0 < step a -> no_search_term a ->
      fetch p a transport
      = ([], Error (ValueError
           ("At least one search parameter must be provided: "
            ++ "target_word (with field), material, author, affil, issn, "
            ++ "or cdjournal."))))
  /\ (forall params,
        In params (requests a (fst (fetch p a transport))) ->
        exists k, In k SEARCH_PARAM_KEYS /\ Py.contains params k = true).
Proof.
  split; [|split].
  - intros H. unfold fetch, validate.
    destruct (in_set (field a) ALLOWED_FIELDS) eqn:Ef; cbn [negb]; [|eauto].
    destruct (Z.leb_spec (max_records a) 0); [eauto|].
    destruct (Z.leb_spec (step a) 0); [eauto|].
    destruct (existsb _ SEARCH_PARAM_KEYS) eqn:Ek; cbn [negb]; [|eauto].
    destruct H as [H|[H|[H|H]]]; try discriminate; try lia.
    rewrite (no_search_term_rejected a H) in Ek. discriminate.
  - intros Hf Hm Hs Hn. unfold fetch, validate. rewrite Hf. cbn [negb].
    destruct (Z.leb_spec (max_records a) 0); [lia|].
    destruct (Z.leb_spec (step a) 0); [lia|].
    rewrite (no_search_term_rejected a Hn). reflexivity.
  - intros params Hin. unfold requests in Hin. apply in_map_iff in Hin.
    destruct Hin as (st & <- & Hin).
    destruct (validate a) as [e|] eqn:Hv.
    { rewrite (fetch_invalid p a transport e Hv) in Hin. contradiction. }
    apply validate_passed in Hv. destruct Hv as (_ & _ & _ & Hk).
    apply existsb_exists in Hk. destruct Hk as (k & Hk & Hc).
    exists k. split; [exact Hk|].
    unfold page_params. rewrite !contains_set, Hc. reflexivity.
Qed.

Lemma invalid_arguments_rejected_witness :
  (exists msg, fetch decimal_int32 year_only endless_threes
               = ([], Error (ValueError msg)))
  /\ fetch decimal_int32 year_only endless_threes
     = ([], Error (ValueError
          ("At least one search parameter must be provided: "
           ++ "target_word (with field), material, author, affil, issn, "
           ++ "or cdjournal."))).
Proof.
  destruct (invalid_arguments_rejected decimal_int32 year_only endless_threes)
    as (H1 & H2 & _).
  split.
  - apply H1. right. right. right. unfold no_search_term, year_only.
    cbn. repeat split.
  - apply H2.
    + reflexivity.
    + reflexivity.
    + reflexivity.
    + unfold no_search_term, year_only. cbn. repeat split.
Defined.

(** C6.  The first request has cursor 1 and the n-th (from 0) has cursor
    [1 + n * step], sent as the [start] parameter with [count = step]; each
    page that is followed by another moves the cursor by exactly [step]; and
    when, after a page, a total is held and the cursor moved by [step] would
    exceed it, that page is the last one requested. *)
Theorem cursor_advances_by_step p a transport :
  let log := fst (fetch p a transport) in
  (forall n st,
     nth_error log n = Some st ->
     start_idx st = 1 + Z.of_nat n * step a
     /\ Py.get (page_params a st) "start"
        = Some (Py.str (1 + Z.of_nat n * step a))
     /\ Py.get (page_params a st) "count" = Some (Py.str (step a)))
  /\ (forall n st st',
        nth_error log n = Some st -> nth_error log (S n) = Some st' ->
        start_idx st' = start_idx st + step a)
  /\ (forall n st t,
        nth_error log n = Some st ->
        settled st (reply_at a transport n st) = Some t ->
        start_idx st + step a > t ->
        length log = S n).
Proof.
  intros log.
  destruct (validate a) as [e|] eqn:Hv.
  { subst log. rewrite (fetch_invalid p a transport e Hv). cbn [fst].
    split; [|split]; intros [|k] st; intros; discriminate. }
  destruct (fetch_outcome p a transport Hv) as (Hlog & Hrun & _).
  subst log. rewrite Hlog.
  pose proof (runs_heads a transport _ _
                (proj1 (proj2 (validate_passed a Hv))) Hrun) as Hheads.
  split; [|split].
  - intros n st Hn. destruct (Hheads n st Hn) as (_ & _ & Hidx).
    split; [exact Hidx|]. unfold page_params. split.
    + rewrite get_set_other by discriminate.
      now rewrite get_set_same, Hidx.
    + apply get_set_same.
  - intros n st st' Hn Hn'.
    pose proof (runs_consecutive _ _ _ _ _ _ Hrun n st st' Hn Hn') as Hc.
    apply iteration_continue in Hc. tauto.
  - intros n st t Hn Hset Hgt.
    apply (runs_stop_at _ _ _ _ _ _ Hrun n st Hn).
    intros st' Hc. cbn [Nat.add] in Hc. apply iteration_continue in Hc.
    destruct Hc as (_ & _ & _ & _ & Hidx & _ & Hle).
    specialize (Hle t Hset). lia.
Qed.

Lemma cursor_advances_by_step_witness :
  (exists st,
     nth_error (fst (fetch decimal_int32 (sample_args 5 3) endless_threes)) 1
     = Some st
     /\ start_idx st = 4
     /\ Py.get (page_params (sample_args 5 3) st) "start" = Some "4")
  /\ length (fst (fetch decimal_int32 (sample_args 20 3) three_of_three))
     = 1%nat.
Proof.
  split.
  - eexists. split; [reflexivity|].
    destruct (cursor_advances_by_step decimal_int32 (sample_args 5 3)
                endless_threes) as (H & _ & _).
    destruct (H 1%nat _ eq_refl) as (H1 & H2 & _).
    split; [exact H1 | exact H2].
  - destruct (cursor_advances_by_step decimal_int32 (sample_args 20 3)
                three_of_three) as (_ & _ & H).
    apply (H 0%nat initial 3).
    + reflexivity.
    + reflexivity.
    + reflexivity.
Defined.

(** C7, as the code has it.  A result without rows is a table without
    columns: the fifteen documented columns, url_doi last, exist only when
    there is at least one row.  Its [total_results] is set: 0 when a reply
    carried the sentinel status, otherwise the total of the first reply that
    reported one, and 0 when none did. *)
Theorem empty_result_shape p a transport r :
  snd (fetch p a transport) = Ok r ->
  let received := replies a transport (fst (fetch p a transport)) in
  (height (df r) = 0%nat ->
   df r = []
   /\ exists t,
        total_results r = Some t
        /\ (existsb is_sentinel received = true -> t = 0)
        /\ (existsb is_sentinel received = false ->
            t = match first_some (map reported_total received) with
                | Some c => c
                | None => 0
                end))
  /\ (height (df r) <> 0%nat -> columns (df r) = documented_columns).
Proof.
  intros Hok received.
  destruct (fetch_ok p a transport r Hok) as (_ & [[-> Hs]|(Hs & H)]);
    fold received in Hs.
  - split.
    + intros _. split; [reflexivity|]. exists 0. cbn [total_results].
      split; [reflexivity|]. split; [reflexivity|].
      intros Hn. rewrite Hs in Hn. discriminate.
    + intros Hh. now contradiction Hh.
  - destruct H as (at_ & st & _ & Hrec & _ & Ht & Hh & Htot).
    fold received in Htot.
    destruct (table_of_data p _ _ Hrec Ht) as (_ & Hnil & Hcons). split.
    + intros Hz. rewrite Hz in Hh.
      assert (Hdata : all_data st = [])
        by (destruct (all_data st); [reflexivity | discriminate]).
      split; [exact (Hnil Hdata)|].
      eexists. split; [exact Htot|]. rewrite Hdata. cbn [length Z.of_nat].
      split; [intros Hc; rewrite Hs in Hc; discriminate | intros _; reflexivity].
    + intros Hnz.
      assert (Hdata : all_data st <> []).
      { intros Hc. rewrite Hc in Hh. contradiction. }
      destruct (Hcons Hdata) as (es & _ & ->). reflexivity.
Qed.

Lemma empty_result_shape_witness :
  exists r,
    snd (fetch decimal_int32 (sample_args 5 3) empty_with_total) = Ok r
    /\ df r = []
    /\ total_results r = Some 5.
Proof.
  eexists. split; [reflexivity|].
  destruct (empty_result_shape decimal_int32 (sample_args 5 3)
              empty_with_total _ eq_refl) as [H _].
  destruct (H eq_refl) as (Hdf & t & Ht & _ & Hv).
  split; [exact Hdf|]. rewrite Ht, (Hv eq_refl). reflexivity.
Defined.

(** C7 as stated fails: a first page without entries that reports a total
    of 5 gives a table without rows, without the documented columns, and a
    total that is not 0. *)
Lemma empty_table_without_columns :
  exists r,
    snd (fetch decimal_int32 (sample_args 5 3) empty_with_total) = Ok r
    /\ height (df r) = 0%nat
    /\ columns (df r) <> documented_columns
    /\ total_results r <> Some 0.
Proof.
  eexists. split; [reflexivity|]. split; [reflexivity|].
  split; discriminate.
Qed.

(** C8.  In every row of the table [fetch] returns, the doi cell is null or
    a string; url_doi is null in the first case and ["https://doi.org/"]
    followed by the DOI in the second. *)
Theorem url_doi_from_doi p a transport r i :
  snd (fetch p a transport) = Ok r ->
  (i < height (df r))%nat ->
  (cell (df r) "doi" i = Some VNone /\ cell (df r) "url_doi" i = Some VNone)
  \/ (exists s,
        cell (df r) "doi" i = Some (VStr s)
        /\ cell (df r) "url_doi" i = Some (VStr ("https://doi.org/" ++ s))).
Proof.
  intros Hok Hi.
  destruct (fetch_ok p a transport r Hok) as (_ & [[-> _]|(_ & H)]).
  - cbn [df height] in Hi. lia.
  - destruct H as (at_ & st & _ & Hrec & _ & Ht & Hh & _).
    destruct (table_of_data p _ _ Hrec Ht) as (_ & _ & Hcons).
    assert (Hdata : all_data st <> []).
    { intros Hc. rewrite Hc in Hh. cbn [length] in Hh. lia. }
    destruct (Hcons Hdata) as (es & _ & Hes). rewrite Hes in Hi |- *.
    rewrite height_typed_table, <- (length_key_column "doi") in Hi.
    change (cell (typed_table p es) "doi" i)
      with (nth_error (key_column "doi" es) i).
    change (cell (typed_table p es) "url_doi" i)
      with (nth_error (map url_of_doi (key_column "doi" es)) i).
    rewrite nth_error_map.
    destruct (nth_error (key_column "doi" es) i) as [d|] eqn:Hd.
    + destruct (key_column_doi es d (nth_error_In _ _ Hd)) as [->|[s ->]].
      * left. split; reflexivity.
      * right. exists s. split; reflexivity.
    + apply nth_error_None in Hd. lia.
Qed.

Lemma url_doi_from_doi_witness :
  exists r,
    snd (fetch decimal_int32 (sample_args 5 3) endless_threes) = Ok r
    /\ cell (df r) "doi" 0 = Some (VStr "10.1234/abcd")
    /\ cell (df r) "url_doi" 0 = Some (VStr "https://doi.org/10.1234/abcd")
    /\ cell (df r) "doi" 1 = Some VNone
    /\ cell (df r) "url_doi" 1 = Some VNone.
Proof.
  eexists. split; [reflexivity|]. split; [reflexivity|].
  split; [|split; [reflexivity|]].
  - destruct (url_doi_from_doi decimal_int32 (sample_args 5 3) endless_threes
                _ 0%nat eq_refl) as [[Hd _]|(s & Hd & Hu)].
    + apply Nat.ltb_lt. reflexivity.
    + discriminate Hd.
    + rewrite Hu. injection Hd as <-. reflexivity.
  - destruct (url_doi_from_doi decimal_int32 (sample_args 5 3) endless_threes
                _ 1%nat eq_refl) as [[_ Hu]|(s & Hd & _)].
    + apply Nat.ltb_lt. reflexivity.
    + exact Hu.
    + discriminate Hd.
Defined.

(** C9.  When the first reply is an XML document without the sentinel
    status whose totalResults text is there, not blank, and not an integer
    literal, [fetch] ends with the [ValueError] of [int], after that one
    request; this is not a [JStageAPIError].  The page of [bad_total], whose
    totalResults text is ["abc"], is such a reply. *)
Theorem non_numeric_total_raises_ValueError p a transport root t why :
  validate a = None ->
  reply_at a transport 0 initial = Parsed root ->
  is_sentinel (Parsed root) = false ->
  first_nonblank (texts_under [QName "opensearch" "totalResults"] [] root)
  = Some t ->
  Py.int t = inl why ->
  fetch p a transport = ([initial], Error (IntValueError why))
  /\ exception_class (IntValueError why) = "ValueError".
Proof.
  intros Hv Hreply Hs Htext Hint. split; [|reflexivity].
  assert (Hi : iteration a initial (reply_at a transport 0 initial)
               = Raise (IntValueError why)).
  { rewrite Hreply. cbn [iteration]. cbn [is_sentinel] in Hs. rewrite Hs.
    unfold capture. cbn [initial captured].
    unfold _get_total_results_first. now rewrite Htext, Hint. }
  unfold fetch. rewrite Hv. unfold run.
  apply validate_passed in Hv. destruct Hv as (_ & Hpos & _).
  destruct (Z.to_nat (max_records a)) as [|fuel] eqn:Hfuel; [lia|].
  cbn [loop]. rewrite Hi. reflexivity.
Qed.

Lemma non_numeric_total_raises_ValueError_witness :
  fetch decimal_int32 (sample_args 5 3) bad_total
  = ([initial], Error (IntValueError (Py.InvalidLiteral "abc")))
  /\ exception_class (IntValueError (Py.InvalidLiteral "abc")) = "ValueError".
Proof.
  apply (non_numeric_total_raises_ValueError decimal_int32 (sample_args 5 3)
           bad_total (feed (Some "abc") three_entries) "abc").
  - reflexivity.
  - reflexivity.
  - reflexivity.
  - reflexivity.
  - reflexivity.
Defined.

(** C10.  An iteration that reaches the extraction of the entries (its page
    has entries and no sentinel status, and [int] read the total, if one was
    to be read) appends the records of these entries up to the limit, at
    least one: it goes on, or ends at the [break] of the limit or of the
    cursor past the total, with the longer accumulator, unless [time.sleep]
    raises.  So no iteration ends at the [break] of a page that added
    nothing; the loop of a validated call ends by the return on the
    sentinel, by the [break] of a page without entries, of the limit or of
    the cursor past the total, or by an exception: of the request, of the
    parse, of [int] or of [time.sleep]. *)
Theorem page_with_entries_adds_a_record a transport :
  (forall st root,
     entries_of (Parsed root) <> [] ->
     is_sentinel (Parsed root) = false ->
     let data := append_entries (max_records a) (all_data st)
                                (entries_of (Parsed root)) in
     let next := start_idx st + step a in
     (length (all_data st) < length data)%nat
     /\ match capture st root with
        | inl why => iteration a st (Parsed root) = Raise (IntValueError why)
        | inr total =>
            iteration a st (Parsed root) = Continue (mkState data next total)
            \/ iteration a st (Parsed root)
               = Break LimitReached (mkState data (start_idx st) total)
            \/ iteration a st (Parsed root)
               = Break PastTotal (mkState data next total)
            \/ (exists e, sleep a = Refused e
                          /\ iteration a st (Parsed root) = Raise e)
        end)
  /\ (forall st reply st', iteration a st reply <> Break NoProgress st')
  /\ (validate a = None ->
      match snd (run a transport) with
      | Returned r => r = mkFetchResult [] (Some 0)
      | Broke at_ _ =>
          at_ = FirstPageEmpty \/ at_ = NoEntries \/ at_ = LimitReached
          \/ at_ = PastTotal
      | Raised e =>
          (exists msg, e = JStageAPIError msg)
          \/ (exists why, e = IntValueError why)
          \/ (exists k url, transport k url = OtherException e)
          \/ sleep a = Refused e
      | StillRunning => False
      end).
Proof.
  split; [|split].
  - intros st root Hne Hs data next.
    pose proof (append_entries_grows (max_records a) (all_data st) _ Hne)
      as Hgrows.
    fold data in Hgrows. split; [exact Hgrows|].
    cbn [iteration]. cbn [is_sentinel] in Hs. rewrite Hs.
    destruct (capture st root) as [why|total]; [reflexivity|].
    unfold turn_page. cbn [entries_of] in Hne, data.
    destruct (descendant_elems (QName "atom" "entry") root) as [|e rest] eqn:Ee;
      [now contradiction Hne|].
    fold data.
    destruct (Nat.eqb_spec (length data) (length (all_data st))); [lia|].
    destruct (Z.of_nat (length data) >=? max_records a); [auto|].
    fold next.
    destruct (match total with Some t => next >? t | None => false end);
      [auto|].
    destruct (sleep a) as [|e0]; [auto|]. do 3 right. now exists e0.
  - intros st reply st' Hi.
    apply iteration_break in Hi. destruct Hi as [_ Hi].
    apply turn_page_break in Hi. destruct Hi as (_ & Hnp & _).
    now contradiction Hnp.
  - intros Hv. pose proof (run_runs a transport Hv) as Hrun.
    pose proof (runs_not_running _ _ _ _ _ _ Hrun) as Hnot.
    destruct (snd (run a transport)) as [at_ st|r|e|] eqn:E.
    + destruct (runs_end _ _ _ _ _ _ Hrun) as (l & st_last & _ & Hres & _).
      destruct (iteration a st_last _) as [|b s| |] eqn:Hi;
        cbn [ended] in Hres; try discriminate.
      injection Hres as -> ->.
      apply iteration_break in Hi. destruct Hi as [_ Hi].
      apply turn_page_break in Hi. destruct Hi as (_ & Hnp & _).
      destruct b; auto. now contradiction Hnp.
    + exact (proj1 (runs_returned _ _ _ _ _ _ Hrun _ eq_refl)).
    + exact (runs_raised _ _ _ _ _ _ Hrun _ eq_refl).
    + now contradiction Hnot.
Qed.

Lemma page_with_entries_adds_a_record_witness :
  ((length (all_data initial) < length (map record_of three_entries))%nat
   /\ iteration (sample_args 5 3) initial
                (Parsed (feed (Some "100") three_entries))
      = Continue (mkState (map record_of three_entries) 4 (Some 100)))
  /\ match snd (run (sample_args 5 3) total_then_none) with
     | Returned r => r = mkFetchResult [] (Some 0)
     | Broke at_ _ =>
         at_ = FirstPageEmpty \/ at_ = NoEntries \/ at_ = LimitReached
         \/ at_ = PastTotal
     | Raised e =>
         (exists msg, e = JStageAPIError msg)
         \/ (exists why, e = IntValueError why)
         \/ (exists k url, total_then_none k url = OtherException e)
         \/ sleep (sample_args 5 3) = Refused e
     | StillRunning => False
     end.
Proof.
  destruct (page_with_entries_adds_a_record (sample_args 5 3) total_then_none)
    as (H1 & _ & H3).
  split.
  - destruct (H1 initial (feed (Some "100") three_entries)) as [Hlen H].
    + discriminate.
    + reflexivity.
    + split; [exact Hlen|].
      destruct H as [H|[H|[H|(e & Hs & _)]]];
        [exact H | discriminate H | discriminate H | discriminate Hs].
  - exact (H3 eq_refl).
Defined.

(** * Further properties of the code *)

(** ** [strip] *)

Lemma lstrip_starts_unspaced s : starts_unspaced (Py.lstrip s).
Proof.
  induction s as [|c rest IH]; cbn [Py.lstrip]; [exact I|].
  destruct (Py.isspace c) eqn:Ec; [exact IH | exact Ec].
Qed.

Lemma lstrip_unspaced s : starts_unspaced s -> Py.lstrip s = s.
Proof.
  destruct s as [|c rest]; cbn [Py.lstrip starts_unspaced]; [reflexivity|].
  now intros ->.
Qed.

Lemma rstrip_starts_unspaced s :
  starts_unspaced s -> starts_unspaced (Py.rstrip s).
Proof.
  destruct s as [|c rest]; cbn [Py.rstrip starts_unspaced]; [auto|].
  intros Hc. destruct (Py.rstrip rest); [rewrite Hc|]; exact Hc.
Qed.

Lemma rstrip_idempotent s : Py.rstrip (Py.rstrip s) = Py.rstrip s.
Proof.
  induction s as [|c rest IH]; [reflexivity|]. cbn [Py.rstrip].
  destruct (Py.rstrip rest) as [|c' rest'] eqn:Er.
  - destruct (Py.isspace c) eqn:Ec; [reflexivity|].
    cbn [Py.rstrip]. now rewrite Ec.
  - cbn [Py.rstrip] in IH |- *. cbn [Py.rstrip]. now rewrite IH.
Qed.

Lemma strip_idempotent s : Py.strip (Py.strip s) = Py.strip s.
Proof.
  unfold Py.strip.
  rewrite (lstrip_unspaced (Py.rstrip (Py.lstrip s))).
  - apply rstrip_idempotent.
  - apply rstrip_starts_unspaced, lstrip_starts_unspaced.
Qed.

Lemma nonempty_true s : Py.nonempty s = true -> s <> EmptyString.
Proof. destruct s; [discriminate|]. intros _; discriminate. Qed.

Lemma strip_trimmed s : Py.nonempty (Py.strip s) = true -> trimmed (Py.strip s).
Proof.
  intros H. split; [now apply nonempty_true | apply strip_idempotent].
Qed.

(** ** The field extractor *)

Lemma texts_local_trimmed entry path t :
  In t (texts_local entry path) -> trimmed t.
Proof.
  unfold texts_local. rewrite in_flat_map. intros (v & _ & Hv).
  destruct v as [s|e].
  - destruct (Py.nonempty (Py.strip s)) eqn:E; [|contradiction].
    destruct Hv as [<-|[]]. now apply strip_trimmed.
  - destruct (elem_text e) as [t0|]; [|contradiction].
    destruct (Py.nonempty t0 && Py.nonempty (Py.strip t0)) eqn:E;
      [|contradiction].
    destruct Hv as [<-|[]]. apply andb_true_iff in E.
    now apply strip_trimmed.
Qed.

Lemma first_local_trimmed entry path t :
  first_local entry path = Some t ->
  In t (texts_local entry path) /\ trimmed t.
Proof.
  unfold first_local.
  destruct (texts_local entry path) as [|v rest] eqn:E; [discriminate|].
  intros H; inversion H; subst v.
  split; [now left|]. apply (texts_local_trimmed entry path). rewrite E. now left.
Qed.

(** Where the first non-empty text of a list of elements sits. *)
Lemma first_text_split (nodes : list node) :
  match flat_map (fun n => match elem_text n with
                           | Some t => if Py.nonempty t then [t] else []
                           | None => []
                           end) nodes with
  | s :: _ =>
      s <> EmptyString
      /\ exists before child after,
           nodes = (before ++ child :: after)%list
           /\ elem_text child = Some s
           /\ forall b, In b before ->
                elem_text b = None \/ elem_text b = Some EmptyString
  | [] =>
      forall child, In child nodes ->
        elem_text child = None \/ elem_text child = Some EmptyString
  end.
Proof.
  induction nodes as [|n nodes IH]; cbn [flat_map].
  - intros child [].
  - destruct (elem_text n) as [t|] eqn:Et.
    + destruct t as [|c t'] eqn:Ht; cbn [Py.nonempty app].
      * destruct (flat_map _ nodes) as [|s rest].
        -- intros child [<-|Hin]; auto.
        -- destruct IH as (Hs & before & child & after & -> & Hc & Hb).
           split; [exact Hs|]. exists (n :: before), child, after.
           repeat split; auto. intros b [<-|Hin]; auto.
      * split; [discriminate|]. exists [], n, nodes.
        repeat split; auto. intros b [].
    + cbn [app]. destruct (flat_map _ nodes) as [|s rest].
      * intros child [<-|Hin]; auto.
      * destruct IH as (Hs & before & child & after & -> & Hc & Hb).
        split; [exact Hs|]. exists (n :: before), child, after.
        repeat split; auto. intros b [<-|Hin]; auto.
Qed.

(** X1.  [get_first] returns the text of the first child with the qualified
    name whose text is not empty, as it stands (not trimmed), and never an
    empty string; it returns nothing exactly when every such child has no
    text or an empty one. *)
Theorem get_first_is_first_text entry prefix local :
  match get_first entry prefix local with
  | Some s =>
      s <> EmptyString
      /\ exists before child after,
           child_elems (QName prefix local) entry
           = (before ++ child :: after)%list
           /\ elem_text child = Some s
           /\ forall b, In b before ->
                elem_text b = None \/ elem_text b = Some EmptyString
  | None =>
      forall child,
        In child (child_elems (QName prefix local) entry) ->
        elem_text child = None \/ elem_text child = Some EmptyString
  end.
Proof.
  unfold get_first, get_texts.
  pose proof (first_text_split (child_elems (QName prefix local) entry)) as H.
  destruct (flat_map _ (child_elems (QName prefix local) entry)); exact H.
Qed.

Lemma get_first_is_first_text_witness :
  "10.1/x" <> EmptyString
  /\ exists before child after,
       child_elems (QName "prism" "doi")
         (atom "entry" [prism "doi" []; prism "doi" [Text "10.1/x"]])
       = (before ++ child :: after)%list
       /\ elem_text child = Some "10.1/x"
       /\ forall b, In b before ->
            elem_text b = None \/ elem_text b = Some EmptyString.
Proof.
  exact (get_first_is_first_text
           (atom "entry" [prism "doi" []; prism "doi" [Text "10.1/x"]])
           "prism" "doi").
Defined.

Lemma in_text_kids s n : In s (text_kids n) <-> In (Text s) (kids_of n).
Proof.
  unfold text_kids. rewrite in_flat_map. split.
  - intros (k & Hk & Hs).
    destruct k as [ns nm kids|s'|c]; [contradiction| |contradiction].
    destruct Hs as [<-|[]]. exact Hk.
  - intros H. exists (Text s). split; [exact H | now left].
Qed.

Lemma in_child_elems t n k : In k (child_elems t n) -> In k (kids_of n).
Proof. unfold child_elems. rewrite filter_In. tauto. Qed.

Lemma text_kids_descend s k n :
  In k (kids_of n) -> In s (text_kids k) -> In s (text_descendants n).
Proof.
  intros Hk Hs. apply in_text_kids in Hs.
  destruct n as [ns nm kids|s0|c]; [|contradiction|contradiction].
  cbn [kids_of] in Hk.
  cbn [text_descendants]. apply in_flat_map. exists k. split; [exact Hk|].
  destruct k as [ns' nm' kids'|s1|c]; [|contradiction|contradiction].
  cbn [kids_of] in Hs.
  cbn [text_descendants]. apply in_flat_map. exists (Text s).
  split; [exact Hs | now left].
Qed.

(** The texts under [tag/ja] are among the texts anywhere under [tag]. *)
Lemma ja_texts_among_all entry tag t :
  In t (texts_local entry (LocalPath [tag; "ja"] ChildText)) ->
  In t (texts_local entry (LocalPath [tag] AnyText)).
Proof.
  unfold texts_local, xpath_local. cbn [steps last fold_left flat_map].
  rewrite !app_nil_r, !in_flat_map.
  intros (v & Hv & Ht). apply in_map_iff in Hv. destruct Hv as (s & <- & Hs).
  apply in_flat_map in Hs. destruct Hs as (j & Hj & Hs).
  apply in_flat_map in Hj. destruct Hj as (n & Hn & Hj).
  exists (XText s). split; [|exact Ht].
  apply in_map. apply in_flat_map. exists n. split; [exact Hn|].
  exact (text_kids_descend s j n (in_child_elems _ _ _ Hj) Hs).
Qed.

(** X2.  [pick_ja_or_first_tag_local] returns nothing exactly when no text
    under the tag is left after trimming; what it returns is one of those
    trimmed texts, and it is the first text under [tag/ja] when there is
    one. *)
Theorem pick_ja_or_first entry tag :
  (pick_ja_or_first_tag_local entry tag = None
   <-> texts_local entry (LocalPath [tag] AnyText) = [])
  /\ (forall t,
        pick_ja_or_first_tag_local entry tag = Some t ->
        trimmed t /\ In t (texts_local entry (LocalPath [tag] AnyText)))
  /\ (forall t rest,
        texts_local entry (LocalPath [tag; "ja"] ChildText) = t :: rest ->
        pick_ja_or_first_tag_local entry tag = Some t).
Proof.
  unfold pick_ja_or_first_tag_local.
  destruct (first_local entry (LocalPath [tag; "ja"] ChildText)) as [ja|] eqn:Eja.
  - destruct (first_local_trimmed _ _ _ Eja) as [Hin [Hne Hstrip]].
    assert (Htruthy : Py.truthy (Some ja) = true)
      by (destruct ja; [now contradiction Hne | reflexivity]).
    rewrite Htruthy. split; [|split].
    + split; [discriminate|]. intros Hnil.
      apply ja_texts_among_all in Hin. rewrite Hnil in Hin. contradiction.
    + intros t Ht. inversion Ht; subst t.
      split; [now split | now apply ja_texts_among_all].
    + intros t rest Hl. unfold first_local in Eja. rewrite Hl in Eja.
      now inversion Eja.
  - cbn [Py.truthy]. split; [|split].
    + unfold first_local.
      destruct (texts_local entry (LocalPath [tag] AnyText));
        split; intros H; try reflexivity; discriminate.
    + intros t Ht. destruct (first_local_trimmed _ _ _ Ht). now split.
    + intros t rest Hl. unfold first_local in Eja. rewrite Hl in Eja.
      discriminate.
Qed.

Lemma pick_ja_or_first_witness :
  pick_ja_or_first_tag_local
    (atom "entry" [atom "article_title" [atom "en" [Text " Graphs "];
                                         atom "ja" [Text "A"]]])
    "article_title"
  = Some "A".
Proof.
  destruct (pick_ja_or_first
              (atom "entry" [atom "article_title" [atom "en" [Text " Graphs "];
                                                   atom "ja" [Text "A"]]])
              "article_title") as (_ & _ & H).
  apply (H "A" []). reflexivity.
Defined.

(** X3.  The names [authors_local] returns are trimmed and not empty; they
    are the names under [author/ja/name] when there is one, the names under
    [author/name] otherwise; the list is empty only when both are. *)
Theorem authors_local_names entry :
  let ja := texts_local entry (LocalPath ["author"; "ja"; "name"] ChildText) in
  let generic := texts_local entry (LocalPath ["author"; "name"] ChildText) in
  (forall name, In name (authors_local entry) -> trimmed name)
  /\ (ja <> [] -> authors_local entry = ja)
  /\ (ja = [] -> authors_local entry = generic)
  /\ (authors_local entry = [] <-> ja = [] /\ generic = []).
Proof.
  intros ja generic. unfold authors_local. fold ja generic.
  split; [|split; [|split]].
  - intros name Hin. destruct ja eqn:E.
    + exact (texts_local_trimmed entry
               (LocalPath ["author"; "name"] ChildText) name Hin).
    + rewrite <- E in Hin.
      exact (texts_local_trimmed entry
               (LocalPath ["author"; "ja"; "name"] ChildText) name Hin).
  - intros Hne. destruct ja; [now contradiction Hne | reflexivity].
  - now intros ->.
  - destruct ja; split.
    + auto.
    + now intros [_ H].
    + discriminate.
    + intros [H _]. discriminate.
Qed.

Lemma authors_local_names_witness :
  authors_local (atom "entry" [atom "author" [atom "name" [Text " Sato "]]])
  = ["Sato"].
Proof.
  destruct (authors_local_names
              (atom "entry" [atom "author" [atom "name" [Text " Sato "]]]))
    as (_ & _ & H & _).
  rewrite H by reflexivity. reflexivity.
Defined.






(** ** The total and the status of a page *)

Lemma name_matches_local prefix local ns name :
  name_matches (QName prefix local) ns name = true ->
  name_matches (LocalName local) ns name = true.
Proof.
  cbn [name_matches]. destruct (Py.get NS prefix); [|discriminate].
  intros H. apply andb_true_iff in H. tauto.
Qed.

(** The texts a query by qualified name finds are found by the query by
    local name. *)
Lemma texts_under_local prefix local s n :
  forall ancestors,
    In s (texts_under [QName prefix local] ancestors n) ->
    In s (texts_under [LocalName local] ancestors n).
Proof.
  induction n as [s0|c|ns name kids IH] using node_induction; intros ancestors.
  - cbn [texts_under chain_matches].
    destruct ancestors as [|[ns name] rest]; [auto|].
    destruct (name_matches (QName prefix local) ns name) eqn:E;
      cbn [andb]; [|intros []].
    now rewrite (name_matches_local _ _ _ _ E).
  - intros [].
  - cbn [texts_under]. rewrite !in_flat_map. intros (k & Hk & Hs).
    exists k. split; [exact Hk|].
    rewrite Forall_forall in IH. exact (IH k Hk _ Hs).
Qed.

Lemma first_nonblank_in texts t :
  first_nonblank texts = Some t ->
  exists raw, In raw texts /\ t = Py.strip raw.
Proof.
  destruct texts as [|t0 rest]; cbn [first_nonblank]; [discriminate|].
  destruct (Py.nonempty (Py.strip t0)); [|discriminate].
  intros H; inversion H. exists t0. split; [now left | reflexivity].
Qed.

Lemma first_nonblank_none texts :
  (forall raw, In raw texts -> Py.strip raw = EmptyString) ->
  first_nonblank texts = None.
Proof.
  destruct texts as [|t0 rest]; cbn [first_nonblank]; [reflexivity|].
  intros H. now rewrite (H t0 (or_introl eq_refl)).
Qed.

(** X5.  The total of a page, and the [ValueError] in its place, come from
    the text of an element named totalResults, trimmed and handed to [int];
    a page where every such text is blank, or missing, has no total and
    raises nothing. *)
Theorem total_results_from_the_element root :
  let texts := texts_under [LocalName "totalResults"] [] root in
  (forall n,
     _get_total_results_first root = inr (Some n) ->
     exists raw, In raw texts /\ Py.int (Py.strip raw) = inr n)
  /\ (forall why,
        _get_total_results_first root = inl why ->
        exists raw, In raw texts /\ Py.int (Py.strip raw) = inl why)
  /\ ((forall raw, In raw texts -> Py.strip raw = EmptyString) ->
      _get_total_results_first root = inr None).
Proof.
  intros texts. subst texts. unfold _get_total_results_first.
  split; [|split].
  - intros n.
    destruct (first_nonblank (texts_under [QName _ _] [] root)) as [t|] eqn:E1.
    + apply first_nonblank_in in E1. destruct E1 as (raw & Hin & ->).
      destruct (Py.int (Py.strip raw)) eqn:Ei; intros H; inversion H; subst.
      exists raw. split; [now apply texts_under_local in Hin | exact Ei].
    + destruct (first_nonblank (texts_under [LocalName _] [] root)) as [t|] eqn:E2;
        [|discriminate].
      apply first_nonblank_in in E2. destruct E2 as (raw & Hin & ->).
      destruct (Py.int (Py.strip raw)) eqn:Ei; intros H; inversion H; subst.
      exists raw. split; [exact Hin | exact Ei].
  - intros why.
    destruct (first_nonblank (texts_under [QName _ _] [] root)) as [t|] eqn:E1.
    + apply first_nonblank_in in E1. destruct E1 as (raw & Hin & ->).
      destruct (Py.int (Py.strip raw)) eqn:Ei; intros H; inversion H; subst.
      exists raw. split; [now apply texts_under_local in Hin | exact Ei].
    + destruct (first_nonblank (texts_under [LocalName _] [] root)) as [t|] eqn:E2;
        [|discriminate].
      apply first_nonblank_in in E2. destruct E2 as (raw & Hin & ->).
      destruct (Py.int (Py.strip raw)) eqn:Ei; intros H; inversion H; subst.
      exists raw. split; [exact Hin | exact Ei].
  - intros Hblank.
    rewrite (first_nonblank_none (texts_under [QName _ _] [] root)).
    + now rewrite (first_nonblank_none _ Hblank).
    + intros raw Hin. apply Hblank. now apply texts_under_local in Hin.
Qed.

Lemma total_results_from_the_element_witness :
  (exists raw,
     In raw (texts_under [LocalName "totalResults"] []
               (feed (Some " 100 ") three_entries))
     /\ Py.int (Py.strip raw) = inr 100)
  /\ _get_total_results_first (feed (Some "  ") three_entries) = inr None.
Proof.
  split.
  - destruct (total_results_from_the_element
                (feed (Some " 100 ") three_entries)) as (H & _ & _).
    apply H. reflexivity.
  - destruct (total_results_from_the_element
                (feed (Some "  ") three_entries)) as (_ & _ & H).
    apply H. intros raw [<-|[]]. reflexivity.
Defined.

(** ** The query *)

Lemma quote_char_safe c rest :
  string_forall url_safe (Py.quote rest) = true ->
  string_forall url_safe (Py.quote (String c rest)) = true.
Proof.
  intros Hrest. cbn [Py.quote].
  destruct c as [[] [] [] [] [] [] [] []]; cbn; exact Hrest.
Qed.

Lemma quote_char_unreserved c rest :
  Py.unreserved c = true ->
  Py.quote (String c rest) = String c (Py.quote rest).
Proof. intros H. cbn [Py.quote]. now rewrite H. Qed.

(** X6.  A quoted value is made of unreserved characters and [%] only, so
    it holds no [&], [=], [?], [#] or space; a value of unreserved
    characters is left as it is. *)
Theorem quoted_value_is_url_safe s :
  string_forall url_safe (_q s) = true
  /\ (string_forall Py.unreserved s = true -> _q s = s).
Proof.
  unfold _q. split.
  - induction s as [|c rest IH]; [reflexivity|].
    now apply quote_char_safe.
  - induction s as [|c rest IH]; [reflexivity|].
    cbn [string_forall]. intros H. apply andb_true_iff in H.
    destruct H as [Hc Hrest].
    rewrite (quote_char_unreserved c rest Hc). now rewrite IH.
Qed.

Lemma quoted_value_is_url_safe_witness : _q "10.1234-abcd" = "10.1234-abcd".
Proof.
  apply (quoted_value_is_url_safe "10.1234-abcd"). reflexivity.
Defined.

Lemma contains_in {V} (d : Py.dict V) k :
  Py.contains d k = true <-> In k (keys d).
Proof.
  unfold Py.contains, keys. rewrite existsb_exists, in_map_iff. split.
  - intros ([k0 v] & Hin & He). apply String.eqb_eq in He. cbn in He. subst.
    exists (k, v). auto.
  - intros ([k0 v] & <- & Hin). exists (k0, v). split; [exact Hin|].
    apply String.eqb_refl.
Qed.

Lemma keys_set {V} (d : Py.dict V) k v :
  keys (Py.set d k v)
  = if Py.contains d k then keys d else (keys d ++ [k])%list.
Proof.
  unfold keys, Py.contains.
  induction d as [|[k0 v0] d IH]; cbn [Py.set map existsb fst app];
    [reflexivity|].
  destruct (String.eqb_spec k0 k) as [->|Hne]; cbn [map fst orb];
    [reflexivity|].
  rewrite IH. now destruct (existsb _ d).
Qed.

Lemma get_keyed_same d k (o : option string) :
  Py.get (match o with
          | Some m => if Py.nonempty m then Py.set d k m else d
          | None => d
          end) k
  = if Py.truthy o then o else Py.get d k.
Proof.
  destruct o as [m|]; cbn [Py.truthy]; [|reflexivity].
  destruct (Py.nonempty m); [apply get_set_same | reflexivity].
Qed.

Lemma get_keyed_other d k (o : option string) k' :
  k <> k' ->
  Py.get (match o with
          | Some m => if Py.nonempty m then Py.set d k m else d
          | None => d
          end) k'
  = Py.get d k'.
Proof.
  intros Hne. destruct o as [m|]; [|reflexivity].
  destruct (Py.nonempty m); [now apply get_set_other | reflexivity].
Qed.

Lemma allowed_field a :
  in_set (field a) ALLOWED_FIELDS = true ->
  field a = "article" \/ field a = "abst" \/ field a = "text"
  \/ field a = "keyword".
Proof.
  unfold in_set, ALLOWED_FIELDS. cbn [existsb]. rewrite !orb_true_iff.
  rewrite !String.eqb_eq. intros [H|[H|[H|[H|H]]]]; auto. discriminate.
Qed.

Lemma allowed_field_apart a k :
  in_set (field a) ALLOWED_FIELDS = true ->
  In k ["service"; "pubyearfrom"; "material"; "author"; "affil"; "issn";
        "cdjournal"; "start"; "count"] ->
  k <> field a.
Proof.
  intros Hf Hk Heq. subst k.
  destruct (allowed_field a Hf) as [E|[E|[E|E]]]; rewrite E in Hk;
    cbn [In] in Hk;
    repeat match goal with
           | H : _ \/ _ |- _ => destruct H as [H|H]; [discriminate H|]
           end; contradiction.
Qed.

(** The search word in the parameters. *)
Lemma get_word_same (d : Py.dict string) k (o : option string) :
  Py.get (match o with
          | Some w => if Py.nonempty (Py.strip w)
                      then Py.set d k (Py.strip w) else d
          | None => d
          end) k
  = match o with
    | Some w => if Py.nonempty (Py.strip w) then Some (Py.strip w)
                else Py.get d k
    | None => Py.get d k
    end.
Proof.
  destruct o as [w|]; [|reflexivity].
  destruct (Py.nonempty (Py.strip w)); [apply get_set_same | reflexivity].
Qed.

Lemma get_word_other (d : Py.dict string) k (o : option string) k' :
  k <> k' ->
  Py.get (match o with
          | Some w => if Py.nonempty (Py.strip w)
                      then Py.set d k (Py.strip w) else d
          | None => d
          end) k'
  = Py.get d k'.
Proof.
  intros Hne. destruct o as [w|]; [|reflexivity].
  destruct (Py.nonempty (Py.strip w)); [now apply get_set_other | reflexivity].
Qed.

Ltac through_params Hf :=
  unfold page_params, base_params; cbv zeta;
  repeat first
    [ rewrite get_set_other by
        (discriminate || (apply (allowed_field_apart _ _ Hf); cbn [In]; tauto))
    | rewrite get_keyed_other by
        (discriminate || (apply (allowed_field_apart _ _ Hf); cbn [In]; tauto))
    | rewrite get_keyed_same
    | rewrite get_word_same
    | rewrite get_word_other by
        (apply not_eq_sym; apply (allowed_field_apart _ _ Hf); cbn [In]; tauto) ].

(** The parameters of a request of a call whose field is an allowed one. *)
Lemma page_params_values a st :
  in_set (field a) ALLOWED_FIELDS = true ->
  let params := page_params a st in
  Py.get params "service" = Some "3"
  /\ Py.get params "pubyearfrom" = Some (Py.str (year a))
  /\ Py.get params (field a)
     = match target_word a with
       | Some w => if Py.nonempty (Py.strip w) then Some (Py.strip w) else None
       | None => None
       end
  /\ Py.get params "material"
     = (if Py.truthy (material a) then material a else None)
  /\ Py.get params "author"
     = (if Py.truthy (author a) then author a else None)
  /\ Py.get params "affil" = (if Py.truthy (affil a) then affil a else None)
  /\ Py.get params "issn" = (if Py.truthy (issn a) then issn a else None)
  /\ Py.get params "cdjournal"
     = (if Py.truthy (cdjournal a) then cdjournal a else None).
Proof.
  intros Hf params. subst params.
  assert (Hs : "service" <> field a)
    by (apply (allowed_field_apart _ _ Hf); cbn [In]; tauto).
  assert (Hy : "pubyearfrom" <> field a)
    by (apply (allowed_field_apart _ _ Hf); cbn [In]; tauto).
  assert (Hnone : Py.get [("service", "3"); ("pubyearfrom", Py.str (year a))]
                         (field a) = None).
  { cbn [Py.get].
    destruct (String.eqb_spec "service" (field a)); [contradiction|].
    destruct (String.eqb_spec "pubyearfrom" (field a)); [contradiction|].
    reflexivity. }
  repeat split; through_params Hf; try reflexivity.
  now rewrite Hnone.
Qed.

(** X7.  Every request of [fetch] carries [service=3], the year as
    [pubyearfrom], the trimmed search word under the field's key, and each
    of material, author, affil, issn and cdjournal that was given and is not
    empty, with its value as given; a parameter not given is not sent. *)
Theorem requests_carry_the_search p a transport params :
  In params (requests a (fst (fetch p a transport))) ->
  Py.get params "service" = Some "3"
  /\ Py.get params "pubyearfrom" = Some (Py.str (year a))
  /\ Py.get params (field a)
     = match target_word a with
       | Some w => if Py.nonempty (Py.strip w) then Some (Py.strip w) else None
       | None => None
       end
  /\ Py.get params "material"
     = (if Py.truthy (material a) then material a else None)
  /\ Py.get params "author"
     = (if Py.truthy (author a) then author a else None)
  /\ Py.get params "affil" = (if Py.truthy (affil a) then affil a else None)
  /\ Py.get params "issn" = (if Py.truthy (issn a) then issn a else None)
  /\ Py.get params "cdjournal"
     = (if Py.truthy (cdjournal a) then cdjournal a else None).
Proof.
  unfold requests. rewrite in_map_iff. intros (st & <- & Hin).
  destruct (validate a) as [e|] eqn:Hv.
  { rewrite (fetch_invalid p a transport e Hv) in Hin. contradiction. }
  apply validate_passed in Hv. destruct Hv as (Hf & _).
  exact (page_params_values a st Hf).
Qed.

Lemma requests_carry_the_search_witness :
  Py.get (page_params (sample_args 5 3) initial) "article" = Some "graph"
  /\ Py.get (page_params (sample_args 5 3) initial) "material" = None.
Proof.
  destruct (requests_carry_the_search decimal_int32 (sample_args 5 3)
              endless_threes (page_params (sample_args 5 3) initial))
    as (_ & _ & Hw & Hm & _).
  - left. reflexivity.
  - split; [exact Hw | exact Hm].
Defined.

Lemma keys_set_search {V} (d : Py.dict V) k v :
  search_keys_after_fixed (keys d) ->
  In k SEARCH_PARAM_KEYS ->
  search_keys_after_fixed (keys (Py.set d k v)).
Proof.
  intros (search & Hk & Hnd & Hin) Hs. rewrite keys_set.
  destruct (Py.contains d k) eqn:Ec.
  - exists search. auto.
  - exists (search ++ [k])%list. rewrite Hk. split; [reflexivity|]. split.
    + apply NoDup_app; [exact Hnd | repeat constructor; intros [] | ].
      intros x Hx [<-|[]].
      assert (Hc : Py.contains d k = true)
        by (apply contains_in; rewrite Hk; right; right; exact Hx).
      rewrite Hc in Ec. discriminate.
    + intros x Hx. apply in_app_or in Hx. destruct Hx as [Hx|[<-|[]]]; auto.
Qed.

Lemma keys_keyed_search (d : Py.dict string) k (o : option string) :
  search_keys_after_fixed (keys d) ->
  In k SEARCH_PARAM_KEYS ->
  search_keys_after_fixed
    (keys (match o with
           | Some m => if Py.nonempty m then Py.set d k m else d
           | None => d
           end)).
Proof.
  intros Hd Hk. destruct o as [m|]; [|exact Hd].
  destruct (Py.nonempty m); [now apply keys_set_search | exact Hd].
Qed.

Lemma base_params_keys a :
  in_set (field a) ALLOWED_FIELDS = true ->
  search_keys_after_fixed (keys (base_params a)).
Proof.
  intros Hf. unfold base_params. cbv zeta.
  repeat (apply keys_keyed_search; [|cbn [SEARCH_PARAM_KEYS In]; tauto]).
  assert (H0 : search_keys_after_fixed
                 (keys [("service", "3"); ("pubyearfrom", Py.str (year a))])).
  { exists []. split; [reflexivity|]. split; [constructor | intros k []]. }
  destruct (target_word a) as [w|]; [|exact H0].
  destruct (Py.nonempty (Py.strip w)); [|exact H0].
  apply keys_set_search; [exact H0|].
  destruct (allowed_field a Hf) as [E|[E|[E|E]]]; rewrite E;
    cbn [SEARCH_PARAM_KEYS In]; tauto.
Qed.

Lemma fixed_keys_not_search k :
  In k SEARCH_PARAM_KEYS ->
  k <> "service" /\ k <> "pubyearfrom" /\ k <> "start" /\ k <> "count".
Proof.
  cbn [SEARCH_PARAM_KEYS In]. intros H.
  repeat (destruct H as [<-|H]; [repeat split; discriminate|]).
  contradiction.
Qed.

(** X8.  The parameters of every request are, in this order, [service],
    [pubyearfrom], at least one search key, [start] and [count]; no key comes
    twice, and every search key is one of [SEARCH_PARAM_KEYS]. *)
Theorem request_keys_in_order p a transport params :
  In params (requests a (fst (fetch p a transport))) ->
  exists search,
    keys params
    = ("service" :: "pubyearfrom" :: search ++ ["start"; "count"])%list
    /\ search <> []
    /\ NoDup (keys params)
    /\ forall k, In k search -> In k SEARCH_PARAM_KEYS.
Proof.
  unfold requests. rewrite in_map_iff. intros (st & <- & Hin).
  destruct (validate a) as [e|] eqn:Hv.
  { rewrite (fetch_invalid p a transport e Hv) in Hin. contradiction. }
  apply validate_passed in Hv. destruct Hv as (Hf & _ & _ & Hsome).
  destruct (base_params_keys a Hf) as (search & Hk & Hnd & Hs).
  assert (Hout : forall k, In k ["start"; "count"] -> ~ In k (keys (base_params a))).
  { intros k Hk' Hb. rewrite Hk in Hb.
    destruct Hb as [<-|[<-|Hb]];
      [destruct Hk' as [H|[H|[]]]; discriminate H
      |destruct Hk' as [H|[H|[]]]; discriminate H|].
    destruct (fixed_keys_not_search k (Hs k Hb)) as (_ & _ & H1 & H2).
    destruct Hk' as [<-|[<-|[]]]; [now apply H1 | now apply H2]. }
  assert (Hkeys : keys (page_params a st)
                  = (keys (base_params a) ++ ["start"; "count"])%list).
  { unfold page_params. rewrite !keys_set.
    destruct (Py.contains (base_params a) "start") eqn:E1.
    { apply contains_in in E1. exfalso.
      apply (Hout "start"); [now left | exact E1]. }
    destruct (Py.contains (Py.set (base_params a) "start" _) "count") eqn:E2.
    { apply contains_in in E2. rewrite keys_set, E1 in E2.
      apply in_app_or in E2. destruct E2 as [E2|[E2|[]]]; [|discriminate E2].
      exfalso. apply (Hout "count"); [right; now left | exact E2]. }
    now rewrite <- app_assoc. }
  exists search. rewrite Hkeys, Hk. split; [reflexivity|]. split; [|split].
  - intros ->. apply existsb_exists in Hsome. destruct Hsome as (k & Hin' & Hc).
    apply contains_in in Hc. rewrite Hk in Hc.
    destruct (fixed_keys_not_search k Hin') as (H1 & H2 & _).
    destruct Hc as [Hc|[Hc|[]]]; congruence.
  - change ("service" :: "pubyearfrom" :: search ++ ["start"; "count"])%list
      with (("service" :: "pubyearfrom" :: search) ++ ["start"; "count"])%list.
    apply NoDup_app.
    + apply NoDup_cons.
      { intros [H|H]; [discriminate H|].
        destruct (fixed_keys_not_search _ (Hs _ H)) as (H1 & _).
        now apply H1. }
      apply NoDup_cons; [|exact Hnd].
      intros H. destruct (fixed_keys_not_search _ (Hs _ H)) as (_ & H2 & _).
      now apply H2.
    + repeat (apply NoDup_cons; [cbn [In]; intuition discriminate|]).
      apply NoDup_nil.
    + intros k Hl Hr. apply (Hout k Hr). rewrite Hk. exact Hl.
  - exact Hs.
Qed.

Lemma request_keys_in_order_witness :
  exists search,
    keys (page_params (sample_args 5 3) initial)
    = ("service" :: "pubyearfrom" :: search ++ ["start"; "count"])%list
    /\ search <> []
    /\ NoDup (keys (page_params (sample_args 5 3) initial))
    /\ forall k, In k search -> In k SEARCH_PARAM_KEYS.
Proof.
  apply (request_keys_in_order decimal_int32 (sample_args 5 3) endless_threes).
  left. reflexivity.
Defined.

(** ** The run as a whole *)

Lemma runs_records_per_page a transport log res :
  runs a transport 0 initial log res ->
  forall n st, nth_error log n = Some st -> (n <= length (all_data st))%nat.
Proof.
  intros Hrun n st Hn.
  apply (runs_invariant a transport
           (fun n st => (n <= length (all_data st))%nat)) with
    (n := 0%nat) (st := initial) (log := log) (res := res) (k := n);
    [|exact Hrun|cbn; lia|exact Hn].
  intros m s s' Hm Hc. apply iteration_continue in Hc.
  destruct Hc as (_ & Hne & Hdata & _).
  pose proof (append_entries_grows (max_records a) (all_data s) _ Hne) as Hg.
  rewrite <- Hdata in Hg. lia.
Qed.

(** X9.  A call sends at most [max_records] requests and then ends; the
    n-th request (from 0) is sent with at least n records accumulated, and
    the cursor grows from request to request, so no page is asked twice. *)
Theorem requests_at_most_max_records p a transport :
  let log := fst (fetch p a transport) in
  (length log <= Z.to_nat (max_records a))%nat
  /\ snd (fetch p a transport) <> Diverges
  /\ (forall n st, nth_error log n = Some st -> (n <= length (all_data st))%nat)
  /\ (forall n m st st',
        (n < m)%nat -> nth_error log n = Some st -> nth_error log m = Some st' ->
        start_idx st < start_idx st').
Proof.
  intros log. subst log.
  split; [|split; [apply fetch_total|]].
  - destruct (validate a) as [e|] eqn:Hv.
    { rewrite (fetch_invalid p a transport e Hv). cbn. lia. }
    destruct (fetch_outcome p a transport Hv) as (Hlog & Hrun & _).
    cbv zeta in Hlog. rewrite Hlog.
    pose proof (validate_passed a Hv) as (_ & Hpos & _).
    destruct (fst (run a transport)) as [|s0 l] eqn:El; [cbn; lia|].
    assert (Hlast : exists st, nth_error (s0 :: l) (length l) = Some st).
    { destruct (nth_error (s0 :: l) (length l)) eqn:E; [eauto|].
      apply nth_error_None in E. cbn [length] in E. lia. }
    destruct Hlast as [st Hst].
    pose proof (runs_records_per_page a transport _ _ Hrun _ _ Hst) as H1.
    destruct (runs_heads a transport _ _ Hpos Hrun _ _ Hst) as (H2 & _).
    cbn [length]. lia.
  - destruct (validate a) as [e|] eqn:Hv.
    { rewrite (fetch_invalid p a transport e Hv). cbn [fst].
      split; intros [|n]; intros; discriminate. }
    destruct (fetch_outcome p a transport Hv) as (Hlog & Hrun & _).
    cbv zeta in Hlog. rewrite Hlog.
    pose proof (validate_passed a Hv) as (_ & Hpos & Hstep & _).
    split.
    + exact (runs_records_per_page a transport _ _ Hrun).
    + intros n m st st' Hnm Hn Hm.
      destruct (runs_heads a transport _ _ Hpos Hrun _ _ Hn) as (_ & _ & ->).
      destruct (runs_heads a transport _ _ Hpos Hrun _ _ Hm) as (_ & _ & ->).
      nia.
Qed.

Lemma requests_at_most_max_records_witness :
  exists st st',
    nth_error (fst (fetch decimal_int32 (sample_args 5 3) endless_threes)) 0
    = Some st
    /\ nth_error (fst (fetch decimal_int32 (sample_args 5 3) endless_threes)) 1
       = Some st'
    /\ start_idx st < start_idx st'.
Proof.
  destruct (requests_at_most_max_records decimal_int32 (sample_args 5 3)
              endless_threes) as (_ & _ & _ & H).
  eexists. eexists. split; [reflexivity|]. split; [reflexivity|].
  apply (H 0%nat 1%nat).
  - constructor.
  - reflexivity.
  - reflexivity.
Defined.

(** X10.  A request that fails, or a body that is not XML, ends the call
    with [JStageAPIError]: that request is the last, the records of earlier
    pages are not returned, and the message is ["Request failed: "] with
    the text of the failure, or the one of the parse. *)
Theorem failed_page_is_fatal p a transport n st :
  nth_error (fst (fetch p a transport)) n = Some st ->
  (forall e,
     reply_at a transport n st = RequestException e ->
     snd (fetch p a transport)
     = Error (JStageAPIError ("Request failed: " ++ e))
     /\ length (fst (fetch p a transport)) = S n)
  /\ (reply_at a transport n st = NotXML ->
      snd (fetch p a transport)
      = Error (JStageAPIError "Failed to parse XML response")
      /\ length (fst (fetch p a transport)) = S n).
Proof.
  intros Hk.
  destruct (validate a) as [e|] eqn:Hv.
  { rewrite (fetch_invalid p a transport e Hv) in Hk.
    destruct n; discriminate. }
  destruct (fetch_outcome p a transport Hv) as (Hlog & Hrun & Hout).
  cbv zeta in Hlog. rewrite Hlog in *.
  split.
  - intros e He.
    destruct (runs_stop_at _ _ _ _ _ _ Hrun _ _ Hk) as [Hlen Hres].
    { intros st' Hc. cbn [Nat.add] in Hc. rewrite He in Hc. discriminate. }
    cbn [Nat.add] in Hres. rewrite He in Hres. cbn [iteration ended] in Hres.
    rewrite Hres in Hout. auto.
  - intros He.
    destruct (runs_stop_at _ _ _ _ _ _ Hrun _ _ Hk) as [Hlen Hres].
    { intros st' Hc. cbn [Nat.add] in Hc. rewrite He in Hc. discriminate. }
    cbn [Nat.add] in Hres. rewrite He in Hres. cbn [iteration ended] in Hres.
    rewrite Hres in Hout. auto.
Qed.

Lemma failed_page_is_fatal_witness :
  snd (fetch decimal_int32 (sample_args 5 3) fails_second)
  = Error (JStageAPIError "Request failed: timed out")
  /\ length (fst (fetch decimal_int32 (sample_args 5 3) fails_second)) = 2%nat.
Proof.
  eapply (failed_page_is_fatal decimal_int32 (sample_args 5 3) fails_second
            1%nat).
  - reflexivity.
  - reflexivity.
Defined.

(** The records a run leaves at its [break]: those it started with, then
    the records of the entries of the pages received, up to the limit. *)
Lemma runs_rows a transport n st log res :
  runs a transport n st log res ->
  Z.of_nat (length (all_data st)) < max_records a ->
  forall at_ st', res = Broke at_ st' ->
    all_data st'
    = (all_data st
       ++ map record_of
            (firstn (Z.to_nat (max_records a - Z.of_nat (length (all_data st))))
                    (flat_map entries_of (replies_from a transport n log))))%list.
Proof.
  induction 1 as [n st Hstop|n st st1 log res Hc Hrun IH];
    intros Hlt at_ st' Hres; cbn [replies_from flat_map].
  - rewrite app_nil_r.
    destruct (iteration a st (reply_at a transport n st)) as [|b s| |] eqn:Hi;
      cbn [ended] in Hres; try discriminate.
    injection Hres as -> ->.
    apply iteration_break in Hi. destruct Hi as [_ Hi].
    apply turn_page_break in Hi. destruct Hi as (_ & _ & Hdata & _).
    destruct at_; destruct Hdata as [H1 H2]; rewrite H2;
      first [ rewrite H1, firstn_nil; cbn [map]; now rewrite app_nil_r
            | now apply append_entries_take ].
  - apply iteration_continue in Hc.
    destruct Hc as (_ & _ & Hdata & Hlt1 & _).
    rewrite (append_entries_take _ _ _ Hlt) in Hdata.
    set (es := entries_of (reply_at a transport n st)) in *.
    remember (Z.to_nat (max_records a - Z.of_nat (length (all_data st))))
      as k eqn:Ek.
    assert (Hall : (length es < k)%nat).
    { rewrite Hdata, length_app, length_map, length_firstn in Hlt1. lia. }
    rewrite firstn_all2 in Hdata by lia.
    rewrite (IH Hlt1 at_ st' Hres), Hdata, <- app_assoc, <- map_app.
    rewrite firstn_app, (firstn_all2 es) by lia.
    do 4 f_equal. rewrite length_app, length_map. lia.
Qed.

(** X11.  When no page carries the sentinel, the rows of the table are the
    records of the entries of the pages received, in the order received,
    cut after the first [max_records]: no entry is skipped, repeated or
    reordered. *)
Theorem rows_are_the_first_entries p a transport r :
  snd (fetch p a transport) = Ok r ->
  existsb is_sentinel (replies a transport (fst (fetch p a transport))) = false ->
  let es := firstn (Z.to_nat (max_records a))
                   (received_entries a transport (fst (fetch p a transport))) in
  table p (map record_of es) = Some (df r)
  /\ height (df r) = length es.
Proof.
  intros Hok Hs es.
  destruct (fetch_ok p a transport r Hok) as (Hv & [[_ Hc]|(_ & H)]).
  { cbv zeta in Hc. rewrite Hc in Hs. discriminate. }
  destruct H as (at_ & st & Hrun & _ & _ & Ht & Hh & _).
  destruct (fetch_outcome p a transport Hv) as (Hlog & Hruns & _).
  cbv zeta in Hlog.
  pose proof (validate_passed a Hv) as (_ & Hpos & _).
  assert (Hdata : all_data st = map record_of es).
  { rewrite (runs_rows _ _ _ _ _ _ Hruns) with (at_ := at_) (st' := st);
      [|cbn; lia|exact Hrun].
    subst es. unfold received_entries, replies. rewrite Hlog.
    cbn [initial all_data length app Z.of_nat]. now rewrite Z.sub_0_r. }
  rewrite <- Hdata. split; [exact Ht|].
  now rewrite Hh, Hdata, length_map.
Qed.

Lemma rows_are_the_first_entries_witness :
  exists r,
    snd (fetch decimal_int32 (sample_args 5 3) endless_threes) = Ok r
    /\ table decimal_int32
         (map record_of (three_entries ++ firstn 2 three_entries))
       = Some (df r).
Proof.
  eexists. split; [reflexivity|].
  apply (rows_are_the_first_entries decimal_int32 (sample_args 5 3)
           endless_threes).
  - reflexivity.
  - reflexivity.
Defined.

Lemma nth_key_column k es i e :
  nth_error es i = Some e ->
  nth_error (key_column k es) i
  = Some (match Py.get (record_of e) k with Some v => v | None => VNone end).
Proof. intros H. unfold key_column. now rewrite nth_error_map, H. Qed.

(** The cell of a key in a row of the typed table. *)
Lemma typed_table_cell p es i e k :
  nth_error es i = Some e ->
  In k record_keys ->
  exists v,
    Py.get (record_of e) k = Some v
    /\ cell (typed_table p es) k i
       = Some (match column_type k with
               | Some t => cast_cell p t v
               | None => v
               end).
Proof.
  intros Hi Hk. unfold record_keys in Hk. cbn [In] in Hk.
  repeat (destruct Hk as [<-|Hk];
          [ eexists; split; [reflexivity|];
            unfold cell, column, typed_table;
            cbn [Py.get String.eqb Ascii.eqb Bool.eqb];
            rewrite ?nth_error_map, (nth_key_column _ es i e Hi);
            reflexivity
          |]).
  contradiction.
Qed.

Lemma cast_int32_cell p v :
  (v = VNone \/ exists s, v = VStr s) ->
  cast_cell p Int32 v = VNone
  \/ exists s z, v = VStr s /\ p s = Some z /\ cast_cell p Int32 v = VInt z.
Proof.
  intros [->|[s ->]]; unfold cast_cell; [now left|].
  destruct (p s) as [z|] eqn:E; [right; exists s, z; auto | now left].
Qed.

(** X12.  When no page carries the sentinel, row [i] of the table is made
    from the i-th entry received: the cell of each of the fourteen keys is
    the value of the record of that entry, cast to the type of its column;
    a year or page cell is null or the integer polars reads in the text as
    it stands in the document. *)
Theorem cells_come_from_the_entry p a transport r i e :
  snd (fetch p a transport) = Ok r ->
  existsb is_sentinel (replies a transport (fst (fetch p a transport))) = false ->
  nth_error (firstn (Z.to_nat (max_records a))
                    (received_entries a transport (fst (fetch p a transport))))
            i
  = Some e ->
  (forall k, In k record_keys ->
     exists v,
       Py.get (record_of e) k = Some v
       /\ cell (df r) k i
          = Some (match column_type k with
                  | Some t => cast_cell p t v
                  | None => v
                  end))
  /\ (forall k, In k ["pubyear"; "starting_page"; "ending_page"] ->
        cell (df r) k i = Some VNone
        \/ exists s z,
             Py.get (record_of e) k = Some (VStr s)
             /\ p s = Some z
             /\ cell (df r) k i = Some (VInt z)).
Proof.
  intros Hok Hs Hi.
  assert (Hdf : df r
                = typed_table p
                    (firstn (Z.to_nat (max_records a))
                       (received_entries a transport (fst (fetch p a transport))))).
  { destruct (fetch_ok p a transport r Hok) as (Hv & [[_ Hc]|(_ & H)]).
    { cbv zeta in Hc. rewrite Hc in Hs. discriminate. }
    destruct H as (at_ & st & Hrun & _ & _ & Ht & _).
    destruct (fetch_outcome p a transport Hv) as (Hlog & Hruns & _).
    cbv zeta in Hlog.
    pose proof (validate_passed a Hv) as (_ & Hpos & _).
    rewrite (runs_rows _ _ _ _ _ _ Hruns) with (at_ := at_) (st' := st) in Ht;
      [|cbn; lia|exact Hrun].
    cbn [initial all_data length app Z.of_nat] in Ht.
    rewrite Z.sub_0_r in Ht. unfold received_entries, replies.
    rewrite Hlog. rewrite table_of_records in Ht;
      [destruct (records_build _); [now inversion Ht | discriminate]|].
    intros Hnil. unfold received_entries, replies in Hi.
    rewrite Hlog, Hnil in Hi. destruct i; discriminate. }
  rewrite Hdf. split.
  - intros k Hk. exact (typed_table_cell p _ i e k Hi Hk).
  - intros k Hk.
    assert (Hrk : In k record_keys)
      by (unfold record_keys; cbn [In] in *; tauto).
    destruct (typed_table_cell p _ i e k Hi Hrk) as (v & Hget & Hcell).
    assert (Hv : v = VNone \/ exists s, v = VStr s).
    { cbn [In] in Hk. destruct Hk as [<-|[<-|[<-|[]]]];
        unfold record_of in Hget;
        cbn [Py.get String.eqb Ascii.eqb Bool.eqb] in Hget;
        inversion Hget;
        match goal with
        | |- context [get_first e ?q ?l] =>
            destruct (get_first e q l); cbn [of_option]; eauto
        end. }
    assert (Ht : column_type k = Some Int32)
      by (cbn [In] in Hk; destruct Hk as [<-|[<-|[<-|[]]]]; reflexivity).
    rewrite Ht in Hcell. rewrite Hcell.
    destruct (cast_int32_cell p v Hv) as [->|(s & z & -> & Hp & ->)];
      [now left|].
    right. exists s, z. auto.
Qed.

Lemma cells_come_from_the_entry_witness :
  exists r,
    snd (fetch decimal_int32 (sample_args 5 3) endless_threes) = Ok r
    /\ (cell (df r) "pubyear" 3 = Some VNone
        \/ exists s z,
             Py.get (record_of (sample_entry "A" (Some "10.1234/abcd")))
                    "pubyear"
             = Some (VStr s)
             /\ decimal_int32 s = Some z
             /\ cell (df r) "pubyear" 3 = Some (VInt z)).
Proof.
  eexists. split; [reflexivity|].
  destruct (cells_come_from_the_entry decimal_int32 (sample_args 5 3)
              endless_threes _ 3%nat (sample_entry "A" (Some "10.1234/abcd"))
              eq_refl eq_refl eq_refl) as [_ H].
  apply H. cbn [In]. tauto.
Defined.

(** ** The command line *)

Lemma cli_field_allowed ns :
  In (Cli.field ns) Cli.FIELD_CHOICES ->
  in_set (field (Cli.fetch_args ns)) ALLOWED_FIELDS = true
  /\ In (Cli.field ns) SEARCH_PARAM_KEYS.
Proof.
  unfold Cli.FIELD_CHOICES, Cli.fetch_args. cbn [In field].
  intros [<-|[<-|[<-|[]]]]; split; try reflexivity;
    cbn [SEARCH_PARAM_KEYS In]; tauto.
Qed.

Lemma cli_validate ns :
  In (Cli.field ns) Cli.FIELD_CHOICES ->
  Py.strip (Cli.query ns) <> EmptyString ->
  0 < Cli.max_records ns ->
  validate (Cli.fetch_args ns) = None.
Proof.
  intros Hf Hq Hm. destruct (cli_field_allowed ns Hf) as [Ha Hs].
  unfold validate. rewrite Ha. cbn [negb].
  unfold Cli.fetch_args at 1 2. cbn [max_records step].
  destruct (Z.leb_spec (Cli.max_records ns) 0); [lia|].
  change (DEFAULT_STEP <=? 0) with false. cbv iota.
  assert (Hc : existsb (Py.contains (base_params (Cli.fetch_args ns)))
                       SEARCH_PARAM_KEYS = true).
  { apply existsb_exists. exists (Cli.field ns). split; [exact Hs|].
    unfold base_params, Cli.fetch_args.
    cbn [target_word year field material author affil issn cdjournal].
    destruct (Py.strip (Cli.query ns)) eqn:E; [now contradiction Hq|].
    cbn [Py.nonempty]. rewrite contains_set, String.eqb_refl.
    apply orb_true_r. }
  now rewrite Hc.
Qed.

Lemma run_log_not_empty a transport :
  validate a = None -> fst (run a transport) <> [].
Proof.
  intros Hv. pose proof (run_runs a transport Hv) as Hrun.
  destruct (runs_end _ _ _ _ _ _ Hrun) as (l & st & -> & _).
  now destruct l.
Qed.

(** X13.  With a field among the choices of the command line, [main] ends
    with [ValueError], without a request and without an effect, when the
    query is blank or the limit is not positive; otherwise it sends at least
    one request. *)
Theorem main_rejects_blank_query p suffix ns transport :
  In (Cli.field ns) Cli.FIELD_CHOICES ->
  (Py.strip (Cli.query ns) = EmptyString \/ Cli.max_records ns <= 0 ->
   exists msg,
     Cli.main p suffix ns transport = ([], [], Cli.Raises (ValueError msg)))
  /\ (Py.strip (Cli.query ns) <> EmptyString -> 0 < Cli.max_records ns ->
      fst (fst (Cli.main p suffix ns transport)) <> []).
Proof.
  intros Hf. split.
  - intros Hbad.
    assert (Hv : exists msg,
               validate (Cli.fetch_args ns) = Some (ValueError msg)).
    { destruct (cli_field_allowed ns Hf) as [Ha _].
      unfold validate. rewrite Ha. cbn [negb].
      unfold Cli.fetch_args at 1 2. cbn [max_records step].
      destruct (Z.leb_spec (Cli.max_records ns) 0); [eauto|].
      change (DEFAULT_STEP <=? 0) with false. cbv iota.
      destruct Hbad as [Hq|Hm]; [|lia].
      rewrite no_search_term_rejected; [cbn [negb]; eauto|].
      unfold no_search_term, Cli.fetch_args.
      cbn [target_word material author affil issn cdjournal Py.truthy].
      repeat split; auto. }
    destruct Hv as [msg Hv]. exists msg. unfold Cli.main.
    now rewrite (fetch_invalid p _ transport _ Hv).
  - intros Hq Hm. pose proof (cli_validate ns Hf Hq Hm) as Hv.
    assert (Hlog : fst (fst (Cli.main p suffix ns transport))
                   = fst (run (Cli.fetch_args ns) transport)).
    { unfold Cli.main.
      destruct (fetch_outcome p _ transport Hv) as (Hl & _).
      cbv zeta in Hl. rewrite <- Hl.
      destruct (snd (fetch p (Cli.fetch_args ns) transport));
        try reflexivity.
      destruct (Py.nonempty (Cli.out ns)); [|reflexivity].
      destruct (String.eqb _ ".csv");
        [destruct (join_authors (df r)); reflexivity|].
      destruct (String.eqb _ ".json"); [reflexivity|].
      destruct (String.eqb _ ".parquet"); reflexivity. }
    rewrite Hlog. now apply run_log_not_empty.
Qed.

Lemma main_rejects_blank_query_witness :
  (exists msg,
     Cli.main decimal_int32 plain_suffix (sample_cli "  " 5 "out.csv")
              endless_threes
     = ([], [], Cli.Raises (ValueError msg)))
  /\ fst (fst (Cli.main decimal_int32 plain_suffix (sample_cli "graph" 5 "")
                        endless_threes))
     <> [].
Proof.
  split.
  - apply (main_rejects_blank_query decimal_int32 plain_suffix
             (sample_cli "  " 5 "out.csv") endless_threes).
    + left. reflexivity.
    + left. reflexivity.
  - apply (main_rejects_blank_query decimal_int32 plain_suffix
             (sample_cli "graph" 5 "") endless_threes).
    + left. reflexivity.
    + discriminate.
    + reflexivity.
Defined.

(** The table of a successful call: nothing at all, or the typed table of
    at least one entry. *)
Lemma ok_table p a transport r :
  snd (fetch p a transport) = Ok r ->
  df r = [] \/ exists e es, df r = typed_table p (e :: es).
Proof.
  intros Hok.
  destruct (fetch_ok p a transport r Hok) as (_ & [[-> _]|(_ & H)]).
  - now left.
  - destruct H as (at_ & st & _ & Hrec & _ & Ht & _).
    destruct (table_of_data p _ _ Hrec Ht) as (_ & Hnil & Hcons).
    destruct (all_data st) as [|d data] eqn:Ed.
    + left. now apply Hnil.
    + right. destruct Hcons as (es & Hes & ->); [discriminate|].
      destruct es as [|e es]; [discriminate|]. eauto.
Qed.

Lemma key_column_author es i :
  (i < length es)%nat ->
  exists names,
    nth_error (key_column "author" es) i = Some (VList names).
Proof.
  intros Hi. destruct (nth_error es i) as [e|] eqn:E.
  - exists (authors_local e). now rewrite (nth_key_column "author" es i e E).
  - apply nth_error_None in E. lia.
Qed.

(** X14.  With an output path ending in [.csv], [main] fails with polars'
    ColumnNotFoundError when the search gave no row, after the requests
    were sent and the directory made; with at least one row it writes the
    fifteen columns, the author of each row joined with ["; "] and the
    other cells as fetched. *)
Theorem csv_export_needs_a_row p suffix ns transport r :
  snd (fetch p (Cli.fetch_args ns) transport) = Ok r ->
  Cli.out ns <> EmptyString ->
  suffix (Cli.out ns) = ".csv" ->
  let log := fst (fetch p (Cli.fetch_args ns) transport) in
  (height (df r) = 0%nat ->
   Cli.main p suffix ns transport
   = (log, [Cli.MakeParents (Cli.out ns)], Cli.Raises ColumnNotFoundError))
  /\ (height (df r) <> 0%nat ->
      exists t,
        Cli.main p suffix ns transport
        = (log, [Cli.MakeParents (Cli.out ns); Cli.WriteCsv t (Cli.out ns)],
           Cli.Returns0)
        /\ columns t = documented_columns
        /\ (forall i, (i < height (df r))%nat ->
              exists names,
                cell (df r) "author" i = Some (VList names)
                /\ cell t "author" i = Some (VStr (Py.join "; " names)))
        /\ (forall k i, k <> "author" -> cell t k i = cell (df r) k i)).
Proof.
  intros Hok Hout Hsuf log. subst log. unfold Cli.main. rewrite Hok.
  assert (Hne : Py.nonempty (Cli.out ns) = true)
    by (destruct (Cli.out ns); [now contradiction Hout | reflexivity]).
  rewrite Hne, Hsuf. cbn [String.eqb Ascii.eqb Bool.eqb].
  destruct (ok_table p _ transport r Hok) as [Hdf|(e & es & Hdf)]; rewrite Hdf.
  - split; [reflexivity|]. intros H. now contradiction H.
  - split; [rewrite height_typed_table; discriminate|]. intros _.
    set (joined := map (fun v => match v with
                                 | VList names => VStr (Py.join "; " names)
                                 | _ => VNone
                                 end)
                       (map (cast_cell p ListUtf8)
                            (key_column "author" (e :: es)))).
    change (join_authors (typed_table p (e :: es)))
      with (Some (Py.set (typed_table p (e :: es)) "author" joined)).
    eexists. split; [reflexivity|]. split; [reflexivity|]. split.
    + intros i Hi. rewrite height_typed_table in Hi.
      destruct (key_column_author (e :: es) i Hi) as [names Hn].
      exists names. unfold cell, column. rewrite get_set_same.
      change (Py.get (typed_table p (e :: es)) "author")
        with (Some (map (cast_cell p ListUtf8) (key_column "author" (e :: es)))).
      subst joined. rewrite !nth_error_map, Hn. split; reflexivity.
    + intros k i Hk. unfold cell, column.
      rewrite get_set_other by congruence. reflexivity.
Qed.

Lemma csv_export_needs_a_row_witness :
  Cli.main decimal_int32 plain_suffix (sample_cli "graph" 5 "out/hits.CSV")
           empty_with_total
  = ([initial], [Cli.MakeParents "out/hits.CSV"],
     Cli.Raises ColumnNotFoundError).
Proof.
  destruct (csv_export_needs_a_row decimal_int32 plain_suffix
              (sample_cli "graph" 5 "out/hits.CSV") empty_with_total
              _ eq_refl) as [H _].
  - discriminate.
  - reflexivity.
  - apply H. reflexivity.
Defined.

(** X15.  After a successful search [main] prints, without an output path,
    the number of rows and the total, which is a number and never [None];
    with a path in [.json] or [.parquet] it hands the table to the writer as
    fetched, also when it has no row; with any other extension than these
    and [.csv] it ends with [SystemExit], after the directory was made. *)
Theorem main_after_the_search p suffix ns transport r :
  snd (fetch p (Cli.fetch_args ns) transport) = Ok r ->
  let log := fst (fetch p (Cli.fetch_args ns) transport) in
  let path := Cli.out ns in
  (path = EmptyString ->
   exists t,
     total_results r = Some t
     /\ Cli.main p suffix ns transport
        = (log,
           [Cli.Print ("rows=" ++ Py.str (Z.of_nat (height (df r)))
                       ++ " total_results=" ++ Py.str t)],
           Cli.Returns0))
  /\ (path <> EmptyString -> suffix path = ".json" ->
      Cli.main p suffix ns transport
      = (log, [Cli.MakeParents path; Cli.WriteJson (df r) path], Cli.Returns0))
  /\ (path <> EmptyString -> suffix path = ".parquet" ->
      Cli.main p suffix ns transport
      = (log, [Cli.MakeParents path; Cli.WriteParquet (df r) path],
         Cli.Returns0))
  /\ (path <> EmptyString -> suffix path <> ".csv" ->
      suffix path <> ".json" -> suffix path <> ".parquet" ->
      log <> []
      /\ Cli.main p suffix ns transport
         = (log, [Cli.MakeParents path],
            Cli.SystemExit "out must end with .csv or .json or .parquet")).
Proof.
  intros Hok log path. subst log path. unfold Cli.main. rewrite Hok.
  split; [|split; [|split]].
  - intros ->. cbn [Py.nonempty].
    destruct (fetch_ok p _ transport r Hok) as (_ & [[-> _]|(_ & H)]).
    + exists 0. split; reflexivity.
    + destruct H as (at_ & st & _ & _ & _ & _ & _ & Ht).
      eexists. split; [exact Ht|]. unfold Cli.summary. now rewrite Ht.
  - intros Hne ->.
    destruct (Cli.out ns); [now contradiction Hne | reflexivity].
  - intros Hne ->.
    destruct (Cli.out ns); [now contradiction Hne | reflexivity].
  - intros Hne H1 H2 H3. split.
    + destruct (fetch_ok p _ transport r Hok) as (Hv & _).
      destruct (fetch_outcome p _ transport Hv) as (Hl & _).
      cbv zeta in Hl. rewrite Hl. now apply run_log_not_empty.
    + assert (Hn : Py.nonempty (Cli.out ns) = true)
        by (destruct (Cli.out ns); [now contradiction Hne | reflexivity]).
      rewrite Hn.
      destruct (String.eqb_spec (suffix (Cli.out ns)) ".csv"); [contradiction|].
      destruct (String.eqb_spec (suffix (Cli.out ns)) ".json"); [contradiction|].
      destruct (String.eqb_spec (suffix (Cli.out ns)) ".parquet");
        [contradiction | reflexivity].
Qed.

Lemma main_after_the_search_witness :
  Cli.main decimal_int32 plain_suffix (sample_cli "graph" 5 "")
           total_then_none
  = ([initial], [Cli.Print "rows=3 total_results=100"], Cli.Returns0)
  /\ Cli.main decimal_int32 plain_suffix (sample_cli "graph" 5 "hits.txt")
              empty_with_total
     = ([initial], [Cli.MakeParents "hits.txt"],
        Cli.SystemExit "out must end with .csv or .json or .parquet").
Proof.
  split.
  - destruct (main_after_the_search decimal_int32 plain_suffix
                (sample_cli "graph" 5 "") total_then_none _ eq_refl)
      as (H & _).
    destruct (H eq_refl) as (t & Ht0 & Ht).
    vm_compute in Ht0. injection Ht0 as <-. rewrite Ht. reflexivity.
  - destruct (main_after_the_search decimal_int32 plain_suffix
                (sample_cli "graph" 5 "hits.txt") empty_with_total _ eq_refl)
      as (_ & _ & _ & H).
    apply H; discriminate.
Defined.

(** ** The total as a bound on the pages *)

Lemma first_total_is_kept a transport log res t :
  runs a transport 0 initial log res ->
  reported_total (reply_at a transport 0 initial) = Some t ->
  forall n st, nth_error log (S n) = Some st -> captured st = Some t.
Proof.
  intros Hrun Ht n st Hn.
  assert (H : (fun k s => (k = 0%nat -> s = initial)
                          /\ (k <> 0%nat -> captured s = Some t))
                (0 + S n)%nat st).
  { apply (runs_invariant a transport
             (fun k s => (k = 0%nat -> s = initial)
                         /\ (k <> 0%nat -> captured s = Some t)))
      with (n := 0%nat) (st := initial) (log := log) (res := res);
      [|exact Hrun|split; [reflexivity | intros H; now contradiction H]
       |exact Hn].
    intros k s s' [H0 H1] Hc. split; [discriminate|]. intros _.
    apply iteration_continue in Hc.
    destruct Hc as (_ & _ & _ & _ & _ & Hcap & _).
    rewrite Hcap. unfold settled.
    destruct k as [|k].
    - rewrite (H0 eq_refl). cbn [initial captured]. exact Ht.
    - now rewrite (H1 ltac:(discriminate)). }
  destruct H as [_ H]. apply H. discriminate.
Qed.

(** X16.  When the first page reports a total, every later request starts
    at a cursor within that total: with a total [t] and pages of [step],
    the requests of a call are [1 + (t - 1) / step] at most (and one when
    [t] is not positive). *)
Theorem no_request_beyond_the_total p a transport t :
  let log := fst (fetch p a transport) in
  reported_total (reply_at a transport 0 initial) = Some t ->
  (forall n st, nth_error log (S n) = Some st -> start_idx st <= t)
  /\ Z.of_nat (length log) <= 1 + Z.max 0 ((t - 1) / step a).
Proof.
  intros log Ht. subst log.
  destruct (validate a) as [e|] eqn:Hv.
  { rewrite (fetch_invalid p a transport e Hv). cbn [fst length Z.of_nat].
    split; [intros n st H; destruct n; discriminate | lia]. }
  destruct (fetch_outcome p a transport Hv) as (Hlog & Hrun & _).
  cbv zeta in Hlog. rewrite Hlog.
  pose proof (validate_passed a Hv) as (_ & Hpos & Hstep & _).
  assert (Hle : forall n st,
             nth_error (fst (run a transport)) (S n) = Some st ->
             start_idx st <= t).
  { intros n st Hn.
    pose proof (first_total_is_kept a transport _ _ t Hrun Ht n st Hn) as Hcap.
    destruct (nth_error (fst (run a transport)) n) as [st0|] eqn:E0.
    - pose proof (runs_consecutive _ _ _ _ _ _ Hrun n st0 st E0 Hn) as Hc.
      apply iteration_continue in Hc.
      destruct Hc as (_ & _ & _ & _ & _ & Hset & Hbound).
      apply Hbound. now rewrite <- Hset.
    - apply nth_error_None in E0.
      assert (nth_error (fst (run a transport)) (S n) = None)
        by (apply nth_error_None; lia).
      congruence. }
  split; [exact Hle|].
  destruct (fst (run a transport)) as [|s0 l] eqn:El; [cbn [length]; lia|].
  destruct l as [|s1 l]; [cbn [length]; lia|].
  assert (Hlast : exists st,
             nth_error (s0 :: s1 :: l) (S (length l)) = Some st).
  { destruct (nth_error (s0 :: s1 :: l) (S (length l))) eqn:E; [eauto|].
    apply nth_error_None in E. cbn [length] in E. lia. }
  destruct Hlast as [st Hst]. pose proof (Hle _ _ Hst) as Hbound.
  destruct (runs_heads a transport _ _ Hpos Hrun _ _ Hst) as (_ & _ & Hidx).
  rewrite Hidx in Hbound. cbn [length].
  assert (Hq : Z.of_nat (S (length l)) <= (t - 1) / step a).
  { apply Z.div_le_lower_bound; [exact Hstep|]. lia. }
  lia.
Qed.

Lemma no_request_beyond_the_total_witness :
  Z.of_nat (length (fst (fetch decimal_int32 (sample_args 20 3)
                           three_of_three)))
  <= 1 + Z.max 0 ((3 - 1) / 3).
Proof.
  apply (no_request_beyond_the_total decimal_int32 (sample_args 20 3)
           three_of_three 3).
  reflexivity.
Defined.

(** ** Totals in decimal *)

Ltac digit_values :=
  repeat match goal with
         | |- context [Py.digit_value ?c] =>
             let v := eval vm_compute in (Py.digit_value c) in
             change (Py.digit_value c) with v
         end.

Lemma digits_after_some d :
  forall p c,
    Py.int_digits (NilEmpty.string_of_uint d) true (Zpos p) c
    = Some (Zpos (Pos.of_uint_acc d p),
            (c + String.length (NilEmpty.string_of_uint d))%nat).
Proof.
  induction d; intros p c;
    cbn [NilEmpty.string_of_uint Py.int_digits String.length Pos.of_uint_acc];
    [now rewrite Nat.add_0_r|..];
    change (Py.is_digit _) with true; cbv iota; digit_values;
    match goal with
    | |- Py.int_digits _ _ ?x _ = Some (Zpos (Pos.of_uint_acc _ ?q), _) =>
        replace x with (Zpos q) by lia
    end;
    rewrite IHd; do 2 f_equal; lia.
Qed.

Lemma digits_from_zero d :
  forall c after,
    Py.int_digits (NilEmpty.string_of_uint d) after 0 c
    = match d with
      | Decimal.Nil => if after then Some (0, c) else None
      | _ => Some (Z.of_N (Pos.of_uint d),
                   (c + String.length (NilEmpty.string_of_uint d))%nat)
      end.
Proof.
  induction d; intros c after;
    cbn [NilEmpty.string_of_uint Py.int_digits String.length Pos.of_uint].
  1: reflexivity.
  1: { change (Py.is_digit "0") with true. cbv iota. digit_values.
       change (10 * 0 + 0) with 0. rewrite IHd.
       destruct d; cbn [NilEmpty.string_of_uint String.length Pos.of_uint];
         do 2 f_equal; lia. }
  all: change (Py.is_digit _) with true; cbv iota; digit_values;
    match goal with
    | |- Py.int_digits _ _ ?x _ = _ =>
        let v := eval vm_compute in x in change x with v
    end;
    rewrite digits_after_some; cbn [Z.of_N]; do 2 f_equal; lia.
Qed.

Lemma rstrip_unspaced s :
  string_forall (fun c => negb (Py.isspace c)) s = true -> Py.rstrip s = s.
Proof.
  induction s as [|c rest IH]; [reflexivity|]. cbn [string_forall Py.rstrip].
  intros H. apply andb_true_iff in H. destruct H as [Hc Hr].
  rewrite (IH Hr). destruct rest; [|reflexivity].
  apply negb_true_iff in Hc. now rewrite Hc.
Qed.

Lemma strip_unspaced s :
  string_forall (fun c => negb (Py.isspace c)) s = true -> Py.strip s = s.
Proof.
  intros H. unfold Py.strip. rewrite lstrip_unspaced.
  - now apply rstrip_unspaced.
  - destruct s; [exact I|]. cbn [string_forall] in H.
    apply andb_true_iff in H. destruct H as [H _].
    now apply negb_true_iff in H.
Qed.

Lemma uint_unspaced d :
  string_forall (fun c => negb (Py.isspace c)) (NilEmpty.string_of_uint d)
  = true.
Proof.
  induction d; cbn [NilEmpty.string_of_uint string_forall];
    try rewrite IHd; reflexivity.
Qed.

Lemma str_unspaced z :
  string_forall (fun c => negb (Py.isspace c)) (Py.str z) = true.
Proof.
  unfold Py.str, NilZero.string_of_int, NilZero.string_of_uint.
  destruct (Z.to_int z) as [d|d]; destruct d;
    cbn [string_forall NilEmpty.string_of_uint];
    rewrite ?uint_unspaced; reflexivity.
Qed.

Lemma str_not_empty z : Py.nonempty (Py.str z) = true.
Proof.
  unfold Py.str, NilZero.string_of_int, NilZero.string_of_uint.
  destruct (Z.to_int z) as [d|d]; destruct d; reflexivity.
Qed.

(** [int] reads back what [str] writes, within the digit limit. *)
Lemma int_str z :
  (String.length (Py.str z) <= Py.int_max_str_digits)%nat ->
  Py.int (Py.str z) = inr z.
Proof.
  intros Hlen. unfold Py.int. rewrite (strip_unspaced _ (str_unspaced z)).
  revert Hlen. unfold Py.str.
  destruct z as [|q|q]; [reflexivity| |];
    cbn [Z.to_int NilZero.string_of_int];
    pose proof (DecimalPos.Unsigned.to_uint_nonnil q) as Hnn;
    pose proof (DecimalPos.Unsigned.of_to q) as Hof;
    unfold NilZero.string_of_uint.
  - destruct (Pos.to_uint q) as [|d|d|d|d|d|d|d|d|d|d] eqn:E;
      [now contradiction Hnn|..];
      intros Hlen;
      match goal with
      | |- context [NilEmpty.string_of_uint ?u] =>
          change (match NilEmpty.string_of_uint u with
                  | String "-" rest => (true, rest)
                  | String "+" rest => (false, rest)
                  | _ => (false, NilEmpty.string_of_uint u)
                  end)
            with (false, NilEmpty.string_of_uint u);
          cbv beta iota zeta;
          rewrite (digits_from_zero u 0 false), Hof
      end;
      cbn [Nat.add Z.of_N];
      match goal with
      | |- context [(_ <? ?n)%nat] =>
          destruct (Nat.ltb_spec Py.int_max_str_digits n); [lia | reflexivity]
      end.
  - cbv beta iota zeta.
    destruct (Pos.to_uint q) as [|d|d|d|d|d|d|d|d|d|d] eqn:E;
      [now contradiction Hnn|..];
      intros Hlen;
      match goal with
      | |- context [NilEmpty.string_of_uint ?u] =>
          rewrite (digits_from_zero u 0 false), Hof
      end;
      cbn [Nat.add Z.of_N]; cbn [String.length] in Hlen;
      match goal with
      | |- context [(_ <? ?n)%nat] =>
          destruct (Nat.ltb_spec Py.int_max_str_digits n); [lia | reflexivity]
      end.
Qed.

(** X17.  A total written in decimal, as [str] writes an integer, with or
    without spaces around it, is captured as that integer (the digits
    within the limit of [int]). *)
Theorem decimal_total_is_captured root raw rest z :
  texts_under [QName "opensearch" "totalResults"] [] root = raw :: rest ->
  Py.strip raw = Py.str z ->
  (String.length (Py.str z) <= Py.int_max_str_digits)%nat ->
  _get_total_results_first root = inr (Some z)
  /\ reported_total (Parsed root) = Some z.
Proof.
  intros Htexts Hraw Hlen.
  assert (H : _get_total_results_first root = inr (Some z)).
  { unfold _get_total_results_first. rewrite Htexts.
    cbn [first_nonblank]. rewrite Hraw, str_not_empty.
    now rewrite (int_str z Hlen). }
  split; [exact H|]. cbn [reported_total]. now rewrite H.
Qed.

Lemma decimal_total_is_captured_witness :
  _get_total_results_first (feed (Some " 1234 ") three_entries)
  = inr (Some 1234)
  /\ reported_total (Parsed (feed (Some " 1234 ") three_entries)) = Some 1234.
Proof.
  apply (decimal_total_is_captured (feed (Some " 1234 ") three_entries)
           " 1234 " [] 1234).
  - reflexivity.
  - reflexivity.
  - apply Nat.leb_le. reflexivity.
Defined.

(** ** Other exits *)

(** X18.  Only the status ["ERR_001"] is special: a first page with any
    other status, or none, and without entries ends the call after that one
    request with a normal result without rows, whose total is the one the
    page reports, or 0. *)
Theorem empty_first_page_is_a_result p a transport root total :
  validate a = None ->
  reply_at a transport 0 initial = Parsed root ->
  status_is (_get_result_status root) "ERR_001" = false ->
  descendant_elems (QName "atom" "entry") root = [] ->
  _get_total_results_first root = inr total ->
  fetch p a transport
  = ([initial],
     Ok (mkFetchResult [] (Some (match total with Some t => t | None => 0 end)))).
Proof.
  intros Hv Hreply Hstatus Hentries Htotal.
  assert (Hi : iteration a initial (reply_at a transport 0 initial)
               = Break FirstPageEmpty (mkState [] 1 total)).
  { rewrite Hreply. cbn [iteration]. rewrite Hstatus.
    unfold capture. cbn [initial captured]. rewrite Htotal, Hentries.
    reflexivity. }
  unfold fetch. rewrite Hv. unfold run.
  pose proof (validate_passed a Hv) as (_ & Hpos & _).
  destruct (Z.to_nat (max_records a)) as [|fuel] eqn:Hfuel; [lia|].
  rewrite (loop_stop _ _ _ _ _ _ _ Hi). cbn [fst snd finish all_data captured].
  unfold assemble. cbn [table DataFrame_of_dicts is_empty height Nat.eqb negb].
  now destruct total.
Qed.

Lemma empty_first_page_is_a_result_witness :
  fetch decimal_int32 (sample_args 5 3) (fun _ _ => Parsed refused_feed)
  = ([initial], Ok (mkFetchResult [] (Some 0))).
Proof.
  apply (empty_first_page_is_a_result decimal_int32 (sample_args 5 3)
           (fun _ _ => Parsed refused_feed) refused_feed None).
  - reflexivity.
  - reflexivity.
  - reflexivity.
  - reflexivity.
  - reflexivity.
Defined.

Lemma continue_sleeps a st reply st' :
  iteration a st reply = Continue st' -> sleep a = Seconds.
Proof.
  intros H.
  destruct (iteration_turns a st reply) as [_ Ht];
    try (intros ? Hc; rewrite H in Hc; discriminate).
  rewrite Ht in H. unfold turn_page in H.
  destruct (entries_of reply); [destruct (start_idx st =? 1); discriminate|].
  destruct (Nat.eqb _ _); [discriminate|].
  destruct (_ >=? _); [discriminate|].
  destruct (match settled st reply with Some _ => _ | None => _ end);
    [discriminate|].
  now destruct (sleep a).
Qed.

(** X19.  With a pause that [time.sleep] refuses, a call never sends a
    second request; when its first page holds entries, fewer than the limit,
    and the result set goes on, the call ends with the exception of
    [time.sleep] and returns nothing. *)
Theorem refused_sleep_stops_after_one_page p a transport e :
  sleep a = Refused e ->
  (length (fst (fetch p a transport)) <= 1)%nat
  /\ (forall k,
        validate a = None ->
        page_of k a (reply_at a transport 0 initial) ->
        (0 < k)%nat -> Z.of_nat k < max_records a ->
        fetch p a transport = ([initial], Error e)).
Proof.
  intros Hsleep. split.
  - destruct (validate a) as [e'|] eqn:Hv.
    { rewrite (fetch_invalid p a transport e' Hv). cbn. lia. }
    destruct (fetch_outcome p a transport Hv) as (Hlog & Hrun & _).
    cbv zeta in Hlog. rewrite Hlog.
    destruct (fst (run a transport)) as [|s0 [|s1 l]] eqn:El;
      [cbn; lia | cbn; lia |].
    pose proof (runs_consecutive _ _ _ _ _ _ Hrun 0%nat s0 s1 eq_refl eq_refl)
      as Hc.
    apply continue_sleeps in Hc. congruence.
  - intros k Hv (Hsent & Hlen & Htot) Hk Hlim.
    assert (Hi : iteration a initial (reply_at a transport 0 initial)
                 = Raise e).
    { destruct (reply_at a transport 0 initial) as [x|x| |root];
        try contradiction.
      cbn [iteration]. cbn [is_sentinel] in Hsent. rewrite Hsent.
      unfold capture. cbn [initial captured]. cbn [entries_of] in Hlen.
      destruct (_get_total_results_first root) as [why|total];
        [contradiction|].
      unfold turn_page.
      destruct (descendant_elems (QName "atom" "entry") root) as [|x rest] eqn:Ee;
        [cbn [length] in Hlen; lia|].
      rewrite append_entries_take by (cbn; lia).
      cbn [initial all_data start_idx length app Z.of_nat].
      rewrite Z.sub_0_r, firstn_all2 by lia.
      rewrite length_map, Hlen.
      destruct (Nat.eqb_spec k 0); [lia|].
      destruct (Z.geb_spec (Z.of_nat k) (max_records a)); [lia|].
      assert (Hp : match total with
                   | Some t => 1 + step a >? t
                   | None => false
                   end = false).
      { destruct total as [t|]; [|reflexivity].
        destruct (Z.gtb_spec (1 + step a) t); [lia | reflexivity]. }
      rewrite Hp, Hsleep. reflexivity. }
    unfold fetch. rewrite Hv. unfold run.
    pose proof (validate_passed a Hv) as (_ & Hpos & _).
    destruct (Z.to_nat (max_records a)) as [|fuel] eqn:Hfuel; [lia|].
    cbn [loop]. rewrite Hi. reflexivity.
Qed.

Lemma refused_sleep_stops_after_one_page_witness :
  (length (fst (fetch decimal_int32 (negative_sleep 5 3) endless_threes)) <= 1)%nat
  /\ fetch decimal_int32 (negative_sleep 5 3) endless_threes
     = ([initial], Error (ValueError "sleep length must be non-negative")).
Proof.
  destruct (refused_sleep_stops_after_one_page decimal_int32
              (negative_sleep 5 3) endless_threes
              (ValueError "sleep length must be non-negative") eq_refl)
    as [H1 H2].
  split; [exact H1|].
  apply (H2 3%nat).
  - reflexivity.
  - split; [reflexivity|]. split; [reflexivity | exact I].
  - apply Nat.ltb_lt. reflexivity.
  - reflexivity.
Defined.



